(** * financialBackend: text extraction, normalisation, scoring and dispatch

    A shallow embedding of [utils.py], [app.py] and the dispatch part of
    [orchestrator.py], with the properties of the document-understanding
    pipeline proved over it.

    Python [str] values are sequences of Unicode code points: a string is a
    [list N], [len] is [length], and every index counts code points. *)

From Stdlib Require Import NArith ZArith QArith Ascii String List Lia Bool Permutation Sorted.
From stdpp Require Import base list gmap sorting.
Import ListNotations.

Local Open Scope nat_scope.
Local Open Scope list_scope.

(** ** Python strings *)

Abbreviation pystr := (list N).

(** An ASCII literal as a Python string. *)
Fixpoint py (s : string) : pystr :=
  match s with
  | EmptyString => []
  | String a r => N_of_ascii a :: py r
  end.

Definition NL : N := 10%N.

Definition in_range (lo hi c : N) : bool := (lo <=? c)%N && (c <=? hi)%N.

(** [str.isspace] on one code point; the default strip set of
    [str.strip()] and the class [\s] of [re] on [str] patterns
    (CPython's [_PyUnicode_IsWhitespace]). *)
Definition is_space (c : N) : bool :=
  in_range 9 13 c || in_range 28 32 c || (c =? 133)%N || (c =? 160)%N
  || (c =? 5760)%N || in_range 8192 8202 c || (c =? 8232)%N || (c =? 8233)%N
  || (c =? 8239)%N || (c =? 8287)%N || (c =? 12288)%N.

Fixpoint lstrip (s : pystr) : pystr :=
  match s with
  | [] => []
  | c :: r => if is_space c then lstrip r else s
  end.

Definition rstrip (s : pystr) : pystr := rev (lstrip (rev s)).

(** [s.strip()] *)
Definition strip (s : pystr) : pystr := rstrip (lstrip s).

(** [text.split(sep)] for a one-character separator. *)
Fixpoint split_on (sep : N) (text : pystr) : list pystr :=
  match text with
  | [] => [[]]
  | c :: r =>
      if (c =? sep)%N then [] :: split_on sep r
      else match split_on sep r with
           | [] => [[c]]
           | l :: ls => (c :: l) :: ls
           end
  end.

(** [sep.join(parts)] *)
Fixpoint join (sep : pystr) (parts : list pystr) : pystr :=
  match parts with
  | [] => []
  | [l] => l
  | l :: ls => l ++ sep ++ join sep ls
  end.

(** [s.startswith(p)] *)
Fixpoint starts_with (p s : pystr) : bool :=
  match p, s with
  | [], _ => true
  | _ :: _, [] => false
  | a :: p', b :: s' => (a =? b)%N && starts_with p' s'
  end.

(** [s.endswith(p)] *)
Definition ends_with (p s : pystr) : bool := starts_with (rev p) (rev s).

(** [p in s] on strings: substring search. *)
Fixpoint contains (p s : pystr) : bool :=
  starts_with p s ||
  match s with
  | [] => false
  | _ :: r => contains p r
  end.

(** The scan of [text.replace(old, new)] for a non-empty [old]: left to
    right, non-overlapping; [skip] counts the characters of a match that
    are still to be consumed. *)
Fixpoint replace_from (skip : nat) (old new text : pystr) : pystr :=
  match text with
  | [] => []
  | c :: rest =>
      match skip with
      | S k => replace_from k old new rest
      | O =>
          if starts_with old text
          then new ++ replace_from (length old - 1) old new rest
          else c :: replace_from 0 old new rest
      end
  end.

(** [text.replace(old, new)]; an empty [old] matches before every character
    and at the end. *)
Definition replace (old new text : pystr) : pystr :=
  match old with
  | [] => new ++ flat_map (fun c => c :: new) text
  | _ :: _ => replace_from 0 old new text
  end.

(** ** utils.py: the text normaliser *)

(** The [replacements] dict of [fix_common_ocr_errors], in insertion order
    (the order in which [replacements.items()] yields it). *)
Definition replacements : list (pystr * pystr) :=
  [ ([8364%N], [8364%N]);            (* euro sign *)
    (py "$", py "$");
    ([163%N], [163%N]);              (* pound sign *)
    (py "O", py "0");
    (py "l", py "1");
    (py "I", py "1");
    (py "S", py "5");
    (py "lnvoice", py "Invoice");
    (py "lnv", py "Inv");
    (py "TotaI", py "Total");
    (py "Amount", py "Amount");
    (py "VAT", py "VAT");
    (py "BTW", py "BTW");
    (py "0l", py "01");
    (py "02", py "02");
    (py "03", py "03");
    (py "04", py "04");
    (py "05", py "05");
    (py "06", py "06");
    (py "07", py "07");
    (py "08", py "08");
    (py "09", py "09") ].

(** The loop [for old, new in ...: text = text.replace(old, new)]. *)
Definition apply_replacements (table : list (pystr * pystr)) (text : pystr) : pystr :=
  fold_left (fun t rule => replace (fst rule) (snd rule) t) table text.

Definition fix_common_ocr_errors (text : pystr) : pystr :=
  apply_replacements replacements text.

(** One iteration of the line loop of [clean_financial_text]. *)
Definition clean_step (cleaned_lines : list pystr) (line : pystr) : list pystr :=
  let cleaned_line := strip line in
  match cleaned_line with
  | _ :: _ => cleaned_lines ++ [cleaned_line]
  | [] =>
      match last cleaned_lines with
      | Some (_ :: _) => cleaned_lines ++ [[]]
      | _ => cleaned_lines
      end
  end.

Definition clean_lines (lines : list pystr) : list pystr :=
  fold_left clean_step lines [].

Definition clean_financial_text (text : pystr) : pystr :=
  match text with
  | [] => text
  | _ :: _ =>
      let lines := split_on NL text in
      let cleaned_lines := clean_lines lines in
      let cleaned_text := join [NL] cleaned_lines in
      fix_common_ocr_errors cleaned_text
  end.


(** ** The Unicode tables of the Python runtime

    [str.lower] and the [re] classes [\w] and [\d] read CPython's Unicode
    database, which is no part of this repository: it is an interface here.
    [str.lower] maps code point by code point; its one context-dependent
    case, capital sigma, has two non-ASCII images, and this program only
    ever searches lowered text for ASCII patterns. *)
Class PyUnicode := {
  isalnum : N -> bool;       (* [str.isalnum] on one code point *)
  isdecimal : N -> bool;     (* [str.isdecimal]: the class [\d] *)
  lower_char : N -> pystr    (* the full lowercase mapping *)
}.

(** The tables restricted to ASCII: they agree with CPython on every code
    point below 128 and treat the others as caseless symbols. *)
Definition ascii_isalnum (c : N) : bool :=
  in_range 48 57 c || in_range 65 90 c || in_range 97 122 c.
Definition ascii_isdecimal (c : N) : bool := in_range 48 57 c.
Definition ascii_lower_char (c : N) : pystr :=
  if in_range 65 90 c then [(c + 32)%N] else [c].

Definition ascii_tables : PyUnicode :=
  {| isalnum := ascii_isalnum;
     isdecimal := ascii_isdecimal;
     lower_char := ascii_lower_char |}.

Section WithUnicode.
Context {U : PyUnicode}.

(** [s.lower()] *)
Definition lower (s : pystr) : pystr := flat_map lower_char s.

(** [\w] *)
Definition is_word (c : N) : bool := isalnum c || (c =? 95)%N.

(** ** app.py: the quality scorer *)

Definition financial_keywords : list pystr :=
  [ py "invoice"; py "total"; py "amount"; py "vat"; py "btw"; py "date";
    py "payment"; py "receipt"; py "statement" ].

Definition currency_symbols : list pystr :=
  [ [8364%N]; py "$"; [163%N]; py "USD"; py "EUR"; py "GBP" ].

(** [re.findall(r'\d+', text)]: [run] is the match in progress. *)
Fixpoint findall_digits (run : pystr) (text : pystr) : list pystr :=
  match text with
  | [] => match run with [] => [] | _ :: _ => [run] end
  | c :: rest =>
      if isdecimal c then findall_digits (run ++ [c]) rest
      else match run with
           | [] => findall_digits [] rest
           | _ :: _ => run :: findall_digits [] rest
           end
  end.

(** The characters matched by the class [[^\w\s€$£.,:;()\-]]. *)
Definition is_special (c : N) : bool :=
  negb (is_word c || is_space c
        || existsb (N.eqb c) [8364; 36; 163; 46; 44; 58; 59; 40; 41; 45]%N).

(** [re.findall(r'[^\w\s€$£.,:;()\-]', text)] *)
Definition findall_special (text : pystr) : pystr := List.filter is_special text.

(** How many of the leading characters of [s] equal [c]. *)
Fixpoint run_length (c : N) (s : pystr) : nat :=
  match s with
  | [] => 0
  | x :: r => if (x =? c)%N then S (run_length c r) else 0
  end.

(** [re.findall(r'(.)\1{3,}', text)]: at each position [.] takes one
    character other than a line feed, the greedy [\1{3,}] takes every
    further copy of it and needs three; the search resumes after the match.
    The result lists the captured characters. *)
Fixpoint findall_repeated (skip : nat) (text : pystr) : pystr :=
  match text with
  | [] => []
  | c :: rest =>
      match skip with
      | S k => findall_repeated k rest
      | O =>
          let n := run_length c rest in
          if negb (c =? NL)%N && (3 <=? n)
          then c :: findall_repeated n rest
          else findall_repeated 0 rest
      end
  end.

(** [validate_text_quality]. The test [len(special_chars) > len(text) * 0.1]
    is written over the integers: the double nearest to one tenth exceeds it
    by 2^-54 relatively, so for every length below 2^53 the product rounds
    to a tenth of the length when that is an integer and stays on the same
    side of [len(special_chars)] when it is not. *)
Definition validate_text_quality (text : pystr) : Z :=
  match text with
  | [] => 0
  | _ :: _ =>
      if length (strip text) <? 10 then 0
      else
        let score := 100%Z in
        let score := if length text <? 50 then (score - 30)%Z else score in
        let found_keywords :=
          length (List.filter (fun keyword => contains (lower keyword) (lower text))
                              financial_keywords) in
        let score := if found_keywords <? 3 then (score - 20)%Z else score in
        let numbers := findall_digits [] text in
        let score := if length numbers <? 3 then (score - 15)%Z else score in
        let score :=
          if negb (existsb (fun symbol => contains symbol text) currency_symbols)
          then (score - 10)%Z else score in
        let special_chars := findall_special text in
        let score :=
          if length text <? 10 * length special_chars then (score - 25)%Z else score in
        let repeated_chars := findall_repeated 0 text in
        let score :=
          match repeated_chars with
          | _ :: _ => (score - 15)%Z
          | [] => score
          end in
        Z.max 0 (Z.min 100 score)
  end.

End WithUnicode.

(** ** Exceptions, the event log and the cursor of an upload *)

(** Every error of the program is a Python [Exception] built around a
    message; the constructors tell the messages apart. *)
Inductive exn : Type :=
  | External (msg : pystr)                 (* raised by a library or a service *)
  | TextractExtractionFailed (cause : exn) (* "AWS Textract synchronous extraction failed: ..." *)
  | PdfExtractionFailed (cause : exn)      (* "Failed to extract text from PDF: ..." *)
  | UnsupportedFileType (file_name : pystr)(* "Unsupported file type for text extraction: ..." *)
  | ExcelProcessingFailed (cause : exn).   (* "Failed to process Excel file: ..." *)

Inductive result (A : Type) : Type :=
  | Ok (a : A)
  | Raise (e : exn).
Arguments Ok {A} a.
Arguments Raise {A} e.

(** What the program does to the outside world, in order. *)
Inductive event : Type :=
  | CallTextract (file_name : pystr)       (* [detect_document_text] *)
  | CallPdfReader (file_name : pystr)      (* [PyPDF2.PdfReader] *)
  | CallReadExcel (file_name : pystr)      (* [pd.read_excel] *)
  | CallClassifier (text : pystr)          (* [classify_document] *)
  | CallInvoice (text : pystr)             (* [process_invoice] *)
  | CallBankStatement (text : pystr)       (* [process_bank_statement] *)
  | CallGeneralDocument (text : pystr)     (* [process_general_document] *)
  | FallbackWarning (file_name : pystr)    (* the two [print]s of the fallback *)
  | UiWarning (file_name : pystr)          (* [st.warning]: type not supported *)
  | UiError (e : exn).                     (* [st.error] *)

(** The state a call runs in: the read cursor of the upload in hand and the
    log so far. *)
Record world : Type := { cursor : nat; trace : list event }.

Definition M (A : Type) : Type := world -> result A * world.

#[export] Instance M_ret : MRet M := fun A (a : A) w => (Ok a, w).
#[export] Instance M_bind : MBind M := fun A B (k : A -> M B) (m : M A) w =>
  match m w with
  | (Ok a, w') => k a w'
  | (Raise e, w') => (Raise e, w')
  end.
Definition raise {A} (e : exn) : M A := fun w => (Raise e, w).
(** [try: m  except Exception as e: h e] *)
Definition try_except {A} (m : M A) (h : exn -> M A) : M A :=
  fun w => match m w with
           | (Ok a, w') => (Ok a, w')
           | (Raise e, w') => h e w'
           end.
Definition emit (ev : event) : M unit :=
  fun w => (Ok tt, {| cursor := cursor w; trace := trace w ++ [ev] |}).
Definition lift {A} (r : result A) : M A := fun w => (r, w).

(** ** The Textract response and the PDF reader *)

Inductive block_type : Type := PAGE | LINE | OTHER.

(** A block of a Textract response. A field that the dictionary may lack is
    an [option]; [Top] and [Left] stand for the path
    [Geometry.BoundingBox.Top/Left], absent as soon as one level of it is.
    Coordinates are finite doubles, compared as the rationals they are. *)
Record Block : Type := {
  BlockType : block_type;
  Page : option Z;
  Top : option Q;
  Left : option Q;
  Text : option pystr
}.

Record Response : Type := { Blocks : option (list Block) }.

Abbreviation bytes := (list Init.Byte.byte).

Record UploadedFile : Type := {
  name : pystr;
  content : bytes;
  position : nat       (* where the stream stands when the program gets it *)
}.

(** ** The table of an Excel sheet *)

Inductive cell : Type :=
  | NaN
  | CellText (s : pystr)
  | CellNumber (q : Q)
  | CellBool (b : bool).

(** A [DataFrame]: the column labels and the rows, each with its index
    label. *)
Record DataFrame : Type := {
  columns : list pystr;
  rows : list (Z * list cell)
}.

Inductive excel_engine : Type := openpyxl | xlrd.

(** ** The services behind the pipeline

    The OCR service, the PDF parser, the spreadsheet reader and the
    language-model calls of [orchestrator.py] are consumed through what they
    return. [detect_document_text] stands for [get_textract_client] and the
    call on the client it returns. [PdfReader] gives the pages, each with
    the outcome of its [extract_text()]; PyPDF2 positions the stream itself,
    so it reads the whole content wherever the cursor stands. The [_llm]
    functions are the chains that [classify_document] and the three
    [process_] functions invoke, client set-up included. *)
Class Services := {
  InvoiceOutput : Type;
  BankTransaction : Type;
  GeneralDocumentOutput : Type;
  detect_document_text : bytes -> result Response;
  PdfReader : bytes -> result (list (result pystr));
  read_excel : excel_engine -> bytes -> result DataFrame;
  classify_document_llm : pystr -> result pystr;
  process_invoice_llm : pystr -> result InvoiceOutput;
  process_bank_statement_llm : pystr -> result (list BankTransaction);
  process_general_document_llm : pystr -> result GeneralDocumentOutput
}.

(** ** utils.py: the formatter of the remote OCR response *)

Definition page_of (block : Block) : Z := default 1%Z (Page block).
Definition top_of (block : Block) : Q := default 0%Q (Top block).
Definition left_of (block : Block) : Q := default 0%Q (Left block).
Definition text_of (block : Block) : pystr := default [] (Text block).

(** The first loop: one step per block. *)
Definition group_step (pages : gmap Z (list Block)) (block : Block) : gmap Z (list Block) :=
  match BlockType block with
  | PAGE => <[page_of block := []]> pages
  | LINE =>
      let page_num := page_of block in
      let pages :=
        match pages !! page_num with
        | None => <[page_num := []]> pages
        | Some _ => pages
        end in
      alter (fun lines => lines ++ [block]) page_num pages
  | OTHER => pages
  end.

Definition group_blocks (blocks : list Block) : gmap Z (list Block) :=
  fold_left group_step blocks ∅.

(** The order of the sort key [(Top, Left)]: tuples compare by their first
    differing component. *)
Definition key_lt (a b : Block) : bool :=
  match (top_of a ?= top_of b)%Q with
  | Lt => true
  | Gt => false
  | Eq => match (left_of a ?= left_of b)%Q with Lt => true | _ => false end
  end.

Definition key_le (a b : Block) : bool := negb (key_lt b a).

(** [lines.sort(key=...)]: Python's sort is stable, and the stable sorted
    arrangement of a list is unique; insertion from the right, each element
    going before the first one that is not smaller, computes it. *)
Fixpoint insert_line (x : Block) (sorted : list Block) : list Block :=
  match sorted with
  | [] => [x]
  | y :: rest => if key_lt y x then y :: insert_line x rest else x :: y :: rest
  end.

Fixpoint sort_lines (lines : list Block) : list Block :=
  match lines with
  | [] => []
  | x :: rest => insert_line x (sort_lines rest)
  end.

(** [sorted(pages.keys())] *)
Definition sorted_keys (pages : gmap Z (list Block)) : list Z :=
  merge_sort Z.le (elements (dom pages)).

(** [max(pages.keys())], for a non-empty dictionary. *)
Definition max_key (pages : gmap Z (list Block)) : Z :=
  match elements (dom pages) with
  | [] => 0%Z
  | k :: ks => fold_left Z.max ks k
  end.

Definition PAGE_BREAK : pystr := NL :: py "--- PAGE BREAK ---" ++ [NL].

(** The inner loop: the non-blank texts of the lines, one per line. *)
Definition append_line (extracted_text : pystr) (line : Block) : pystr :=
  match strip (text_of line) with
  | [] => extracted_text
  | text => extracted_text ++ text ++ [NL]
  end.

(** One step of the loop over the sorted page numbers. *)
Definition page_step (pages : gmap Z (list Block)) (extracted_text : pystr)
    (page_num : Z) : pystr :=
  let lines := sort_lines (default [] (pages !! page_num)) in
  let extracted_text := fold_left append_line lines extracted_text in
  if (page_num <? max_key pages)%Z then extracted_text ++ PAGE_BREAK
  else extracted_text.

Definition extract_text_with_formatting (response : Response) : pystr :=
  let pages := group_blocks (default [] (Blocks response)) in
  let extracted_text := fold_left (page_step pages) (sorted_keys pages) [] in
  strip extracted_text.

(** ** utils.py: the extractors *)

Fixpoint uint_codes (d : Decimal.uint) : pystr :=
  match d with
  | Decimal.Nil => []
  | Decimal.D0 r => 48%N :: uint_codes r
  | Decimal.D1 r => 49%N :: uint_codes r
  | Decimal.D2 r => 50%N :: uint_codes r
  | Decimal.D3 r => 51%N :: uint_codes r
  | Decimal.D4 r => 52%N :: uint_codes r
  | Decimal.D5 r => 53%N :: uint_codes r
  | Decimal.D6 r => 54%N :: uint_codes r
  | Decimal.D7 r => 55%N :: uint_codes r
  | Decimal.D8 r => 56%N :: uint_codes r
  | Decimal.D9 r => 57%N :: uint_codes r
  end.

(** [str(n)] *)
Definition str_of_nat (n : nat) : pystr := uint_codes (Nat.to_uint n).

(** [f"--- PAGE {page_num + 1} ---\n"] *)
Definition page_marker (page_num : nat) : pystr :=
  py "--- PAGE " ++ str_of_nat (page_num + 1) ++ py " ---" ++ [NL].

(** The page loop of [extract_text_from_pdf], from page [page_num] on. *)
Fixpoint pdf_pages_loop (page_num : nat) (pages : list (result pystr))
    (text : pystr) : result pystr :=
  match pages with
  | [] => Ok text
  | page :: rest =>
      match page with
      | Raise e => Raise e
      | Ok page_text =>
          let text :=
            match strip page_text with
            | [] => text
            | _ :: _ => (text ++ page_marker page_num) ++ page_text ++ [NL; NL]
            end in
          pdf_pages_loop (S page_num) rest text
      end
  end.

Section WithServices.
Context {U : PyUnicode} {S : Services}.

(** [file.read()]: the rest of the stream; the cursor goes to its end,
    unless it stands beyond it already. *)
Definition file_read (file : UploadedFile) : M bytes :=
  fun w => (Ok (drop (cursor w) (content file)),
            {| cursor := Nat.max (cursor w) (length (content file)); trace := trace w |}).

(** [file.seek(0)] *)
Definition file_seek0 : M unit :=
  fun w => (Ok tt, {| cursor := 0; trace := trace w |}).

Definition extract_text_with_aws_textract_sync (file : UploadedFile) : M pystr :=
  try_except
    (file_content ← file_read file;
     file_seek0;;
     emit (CallTextract (name file));;
     response ← lift (detect_document_text file_content);
     let extracted_text := extract_text_with_formatting response in
     let cleaned_text := clean_financial_text extracted_text in
     mret cleaned_text)
    (fun e => raise (TextractExtractionFailed e)).

(** [PyPDF2.PdfReader] finds its own way in the stream, whatever the cursor;
    the model leaves the cursor where it was, although the parser moves it:
    nothing reads the file after the parser in the same run. *)
Definition extract_text_from_pdf (file : UploadedFile) : M pystr :=
  try_except
    (emit (CallPdfReader (name file));;
     pages ← lift (PdfReader (content file));
     text ← lift (pdf_pages_loop 0 pages []);
     let cleaned_text := clean_financial_text (strip text) in
     mret cleaned_text)
    (fun e => raise (PdfExtractionFailed e)).

Definition extract_text_from_file (file : UploadedFile) : M pystr :=
  let file_name := lower (name file) in
  if ends_with (py ".pdf") file_name then extract_text_from_pdf file
  else raise (UnsupportedFileType file_name).

Definition extract_text_hybrid (file : UploadedFile) (use_aws : bool) : M pystr :=
  if use_aws then
    try_except (extract_text_with_aws_textract_sync file)
               (fun e => emit (FallbackWarning (name file));;
                         extract_text_from_file file)
  else extract_text_from_file file.

(** [df.dropna(how='all')]: the rows with at least one value stay, under
    their index labels. *)
Definition is_na (c : cell) : bool :=
  match c with NaN => true | _ => false end.

Definition dropna_all (df : DataFrame) : DataFrame :=
  {| columns := columns df;
     rows := List.filter (fun row => negb (forallb is_na (snd row))) (rows df) |}.

(** [df.fillna('')] *)
Definition fill_cell (c : cell) : cell :=
  match c with NaN => CellText [] | _ => c end.

Definition fillna_empty (df : DataFrame) : DataFrame :=
  {| columns := columns df;
     rows := map (fun row => (fst row, map fill_cell (snd row))) (rows df) |}.

Definition process_excel_file (file : UploadedFile) : M DataFrame :=
  try_except
    (emit (CallReadExcel (name file));;
     df ← lift (if ends_with (py ".xlsx") (name file)
                then read_excel openpyxl (content file)
                else read_excel xlrd (content file));
     let df := dropna_all df in
     let df := fillna_empty df in
     mret df)
    (fun e => raise (ExcelProcessingFailed e)).

(** ** orchestrator.py: the language-model calls *)

Definition classify_document (text : pystr) : M pystr :=
  emit (CallClassifier text);; lift (classify_document_llm text).
Definition process_invoice (text : pystr) : M InvoiceOutput :=
  emit (CallInvoice text);; lift (process_invoice_llm text).
Definition process_bank_statement (text : pystr) : M (list BankTransaction) :=
  emit (CallBankStatement text);; lift (process_bank_statement_llm text).
Definition process_general_document (text : pystr) : M GeneralDocumentOutput :=
  emit (CallGeneralDocument text);; lift (process_general_document_llm text).

(** ** app.py: the two steps of the page *)

(** A [for] loop that threads an accumulator. *)
Fixpoint for_each {A B} (body : B -> A -> M B) (acc : B) (items : list A) : M B :=
  match items with
  | [] => mret acc
  | x :: rest => acc ← body acc x; for_each body acc rest
  end.


Record ExtractedText : Type := {
  file_name : pystr;
  text : pystr;
  quality_score : Z
}.

(** An entry of [processed_files]; its ['type'] is always ['excel']. *)
Record ProcessedFile : Type := {
  pf_name : pystr;
  pf_result : DataFrame
}.

Record Session : Type := {
  extracted_texts : list ExtractedText;
  processed_files : list ProcessedFile
}.

(** [file.name.endswith(('.xlsx', '.xls'))] *)
Definition is_excel_name (file_name : pystr) : bool :=
  ends_with (py ".xlsx") file_name || ends_with (py ".xls") file_name.

(** The body of the extraction loop, for one file. The file comes with its
    own cursor. *)
Definition extract_one (aws_available : bool) (session : Session)
    (file : UploadedFile) : M Session :=
  fun w =>
  (if is_excel_name (name file) then
     excel_result ← process_excel_file file;
     mret {| extracted_texts := extracted_texts session;
             processed_files := processed_files session ++
               [{| pf_name := name file; pf_result := excel_result |}] |}
   else
     extracted_text ← extract_text_hybrid file aws_available;
     let quality_score := validate_text_quality extracted_text in
     mret {| extracted_texts := extracted_texts session ++
               [{| file_name := name file; text := extracted_text;
                   quality_score := quality_score |}];
             processed_files := processed_files session |})
    {| cursor := position file; trace := trace w |}.

(** Step 1: the whole loop sits in one [try]; [st.session_state] is
    assigned only when no file failed. *)
Definition step1 (aws_available : bool) (uploaded_files : list UploadedFile)
    (state : Session) : M Session :=
  try_except
    (for_each (extract_one aws_available)
       {| extracted_texts := []; processed_files := [] |} uploaded_files)
    (fun e => emit (UiError e);; mret state).

(** What Step 2 stores under ['result']. *)
Inductive analysis_output : Type :=
  | InvoiceResult (o : InvoiceOutput)
  | BankStatementResult (o : list BankTransaction)
  | GeneralDocumentResult (o : GeneralDocumentOutput)
  | ExcelResult (df : DataFrame).

Record AnalysisResult : Type := {
  ar_file_name : pystr;
  ar_type : pystr;
  ar_result : analysis_output
}.

(** The branching on [doc_type]; [None] is the [else] branch, which warns
    and goes on to the next document. *)
Definition dispatch (doc_type : pystr) (text : pystr) : option (M analysis_output) :=
  if bool_decide (doc_type = py "invoice") then
    Some (o ← process_invoice text; mret (InvoiceResult o))
  else if bool_decide (doc_type = py "bank_statement") then
    Some (o ← process_bank_statement text; mret (BankStatementResult o))
  else if bool_decide (doc_type ∈ [py "tax_document"; py "receipt";
                                   py "financial_report"; py "other"]) then
    Some (o ← process_general_document text; mret (GeneralDocumentResult o))
  else None.

(** The body of the first loop of Step 2, inside its own [try]. *)
Definition analyze_one (all_results : list AnalysisResult) (result : ExtractedText)
    : M (list AnalysisResult) :=
  try_except
    (doc_type ← classify_document (text result);
     match dispatch doc_type (text result) with
     | Some process =>
         final_output ← process;
         mret (all_results ++
               [{| ar_file_name := file_name result; ar_type := doc_type;
                   ar_result := final_output |}])
     | None => emit (UiWarning (file_name result));; mret all_results
     end)
    (fun e => emit (UiError e);; mret all_results).

(** The body of the second loop of Step 2. *)
Definition pass_excel (all_results : list AnalysisResult) (excel_file : ProcessedFile)
    : M (list AnalysisResult) :=
  mret (all_results ++
        [{| ar_file_name := pf_name excel_file; ar_type := py "excel";
            ar_result := ExcelResult (pf_result excel_file) |}]).

Definition step2 (state : Session) : M (list AnalysisResult) :=
  all_results ← for_each analyze_one [] (extracted_texts state);
  for_each pass_excel all_results (processed_files state).

End WithServices.

(** * Specification-side definitions *)

(** ** The substitution table, as the function it computes *)

(** What the four one-character rules do to one character. *)
Definition fix_char (c : N) : N :=
  if (c =? 79)%N then 48%N          (* O -> 0 *)
  else if (c =? 108)%N then 49%N    (* l -> 1 *)
  else if (c =? 73)%N then 49%N     (* I -> 1 *)
  else if (c =? 83)%N then 53%N     (* S -> 5 *)
  else c.

(** The rules of the table that correct a garbled word or date. *)
Definition multichar_rules : list (pystr * pystr) :=
  [ (py "lnvoice", py "Invoice"); (py "lnv", py "Inv");
    (py "TotaI", py "Total"); (py "0l", py "01") ].

(** ** The line structure of a text *)

(** The loop of [clean_financial_text] read from the left: [lead] says that
    no line has been kept yet or that the last kept line is blank. *)
Fixpoint collapse (lead : bool) (lines : list pystr) : list pystr :=
  match lines with
  | [] => []
  | [] :: rest => if lead then collapse true rest else [] :: collapse true rest
  | line :: rest => line :: collapse false rest
  end.

(** No blank line at the start (when [lead]) and no two blank lines in a
    row. *)
Fixpoint well_spaced (lead : bool) (lines : list pystr) : bool :=
  match lines with
  | [] => true
  | [] :: rest => negb lead && well_spaced true rest
  | _ :: rest => well_spaced false rest
  end.



(** Whether the loop of [clean_financial_text] would drop a blank line
    after having kept [kept]. *)
Definition lead_of (kept : list pystr) : bool :=
  match last kept with
  | Some (_ :: _) => false
  | _ => true
  end.


(** The lines that [clean_financial_text] joins. *)
Definition kept_lines (text : pystr) : list pystr :=
  collapse true (map strip (split_on NL text)).


(** ** The quality score, as the specification words it *)

(** [p] occurs in [s]. *)
Definition occurs (p s : pystr) : Prop := exists pre post, s = pre ++ p ++ post.

(** [n] of the elements of a list satisfy [P]. *)
Inductive count_of {A : Type} (P : A -> Prop) : list A -> nat -> Prop :=
  | count_nil : count_of P [] 0
  | count_yes x l n : P x -> count_of P l n -> count_of P (x :: l) (S n)
  | count_no x l n : ~ P x -> count_of P l n -> count_of P (x :: l) n.

(** A penalty of [k] points that applies exactly when [P] holds. *)
Definition penalty (P : Prop) (k p : Z) : Prop := (P /\ p = k) \/ (~ P /\ p = 0%Z).

(** Some character stands four times in a row. *)
Definition repeats_any (text : pystr) : Prop :=
  exists c pre post, text = pre ++ [c; c; c; c] ++ post.

(** Some character other than a line feed stands four times in a row. *)
Definition repeats_on_a_line (text : pystr) : Prop :=
  exists c pre post, c <> NL /\ text = pre ++ [c; c; c; c] ++ post.

(** The same, searched from the left. *)
Fixpoint has_run4 (text : pystr) : bool :=
  match text with
  | [] => false
  | c :: rest => (negb (c =? NL)%N && (3 <=? run_length c rest)) || has_run4 rest
  end.

Definition pen (b : bool) (k : Z) : Z := if b then k else 0%Z.

Definition clamp (score : Z) : Z := Z.max 0 (Z.min 100 score).

Section ScoreSpec.
Context {U : PyUnicode}.

(** The numeric tokens of a text are its maximal runs of digits: one for
    every digit that does not follow a digit. *)
Fixpoint token_starts (after_digit : bool) (text : pystr) : nat :=
  match text with
  | [] => 0
  | c :: rest =>
      (if isdecimal c && negb after_digit then 1 else 0)
      + token_starts (isdecimal c) rest
  end.

Definition numeric_tokens (text : pystr) : nat := token_starts false text.

(** The characters that the noise heuristic counts. *)
Definition noise_count (text : pystr) : nat := length (List.filter is_special text).

(** The text with the characters counted by the noise heuristic removed. *)
Definition remove_noise (text : pystr) : pystr :=
  List.filter (fun c => negb (is_special c)) text.

(** Section 4.1 of the specification: zero for an empty or all but empty
    text, otherwise 100 less the penalties that apply, clamped. [repeated]
    is the reading of "a character repeats four or more times
    consecutively". *)
Definition quality_spec (repeated : pystr -> Prop) (text : pystr) (score : Z) : Prop :=
  (text = [] \/ length (strip text) < 10 -> score = 0%Z) /\
  (text <> [] -> 10 <= length (strip text) ->
   exists p_len p_kw p_num p_cur p_noise p_rep : Z,
     penalty (length text < 50) 30 p_len /\
     penalty (exists n, count_of (fun keyword => occurs (lower keyword) (lower text))
                                 financial_keywords n /\ n < 3) 20 p_kw /\
     penalty (numeric_tokens text < 3) 15 p_num /\
     penalty (~ exists symbol, In symbol currency_symbols /\ occurs symbol text) 10 p_cur /\
     penalty (length text < 10 * noise_count text) 25 p_noise /\
     penalty (repeated text) 15 p_rep /\
     score = clamp (100 - p_len - p_kw - p_num - p_cur - p_noise - p_rep)).

(** The tests of [validate_text_quality], and the points they take. *)
Definition found_keywords (text : pystr) : nat :=
  length (List.filter (fun keyword => contains (lower keyword) (lower text))
                      financial_keywords).

Definition has_currency (text : pystr) : bool :=
  existsb (fun symbol => contains symbol text) currency_symbols.

Definition has_repeated (text : pystr) : bool :=
  match findall_repeated 0 text with [] => false | _ :: _ => true end.

Definition penalties (text : pystr) : Z :=
  (pen (length text <? 50)%nat 30
   + pen (found_keywords text <? 3)%nat 20
   + pen (length (findall_digits [] text) <? 3)%nat 15
   + pen (negb (has_currency text)) 10
   + pen (length text <? 10 * length (findall_special text))%nat 25
   + pen (has_repeated text) 15)%Z.

End ScoreSpec.

(** A text that has every keyword, number and currency sign it needs, and
    four line feeds in a row. *)
Definition blank_run_text : pystr :=
  py "invoice total amount 1 2 3 $" ++ [NL; NL; NL; NL]
  ++ py "abcdefghijklmnopqrstuvwxyz".

(** A text of fifty characters, twenty-two of them noise. *)
Definition noisy_text : pystr :=
  py "invoice total amount 1 2 3 $" ++ py "#@#@#@#@#@#@#@#@#@#@#@".

(** ** The layout of the formatted OCR text *)

(** Reading order: top to bottom, then left to right. *)
Definition reading_order (a b : Block) : Prop :=
  (top_of a < top_of b)%Q \/ (top_of a == top_of b /\ left_of a <= left_of b)%Q.

(** What one line contributes: its trimmed text and a line feed, or
    nothing when the trimmed text is empty. *)
Definition line_text (line : Block) : pystr :=
  match strip (text_of line) with
  | [] => []
  | text => text ++ [NL]
  end.

(** The text of one page: its lines in reading order. *)
Definition page_text (pages : gmap Z (list Block)) (page_num : Z) : pystr :=
  flat_map line_text (sort_lines (default [] (pages !! page_num))).

(** The step of the page loop with the largest page number as a
    parameter. *)
Definition page_step_upto (pages : gmap Z (list Block)) (last_page : Z)
    (extracted_text : pystr) (page_num : Z) : pystr :=
  let extracted_text := extracted_text ++ page_text pages page_num in
  if (page_num <? last_page)%Z then extracted_text ++ PAGE_BREAK else extracted_text.

(** What the grouping loop maintains: every list holds LINE blocks of its
    page, in the order of the response. *)
Definition grouped (pages : gmap Z (list Block)) (blocks : list Block) : Prop :=
  forall page_num lines, pages !! page_num = Some lines ->
    Forall (fun block => BlockType block = LINE /\ page_of block = page_num) lines /\
    sublist lines blocks.

(** The two lines of the reading-order example of the specification. *)
Definition example_lines : Response :=
  {| Blocks := Some
       [ {| BlockType := LINE; Page := Some 1%Z; Top := Some 0.5%Q;
            Left := Some 0.1%Q; Text := Some (py "B") |};
         {| BlockType := LINE; Page := Some 1%Z; Top := Some 0.1%Q;
            Left := Some 0.2%Q; Text := Some (py "A") |} ] |}.

(** ** The document categories and their extractors *)

(** The closed label set of [DocumentClassifier.document_type]. *)
Inductive DocumentCategory : Type :=
  | invoice | bank_statement | tax_document | receipt | financial_report | other.

Definition category_label (c : DocumentCategory) : pystr :=
  match c with
  | invoice => py "invoice"
  | bank_statement => py "bank_statement"
  | tax_document => py "tax_document"
  | receipt => py "receipt"
  | financial_report => py "financial_report"
  | other => py "other"
  end.

Inductive extractor : Type :=
  | InvoiceExtractor | BankStatementExtractor | GeneralDocumentExtractor.

(** The dispatch table of the specification. *)
Definition extractor_for (c : DocumentCategory) : extractor :=
  match c with
  | invoice => InvoiceExtractor
  | bank_statement => BankStatementExtractor
  | tax_document | receipt | financial_report | other => GeneralDocumentExtractor
  end.

Definition extractor_call (e : extractor) (text : pystr) : event :=
  match e with
  | InvoiceExtractor => CallInvoice text
  | BankStatementExtractor => CallBankStatement text
  | GeneralDocumentExtractor => CallGeneralDocument text
  end.

(** The text that a call to a language model carries. *)
Definition llm_input (ev : event) : option pystr :=
  match ev with
  | CallClassifier text | CallInvoice text | CallBankStatement text
  | CallGeneralDocument text => Some text
  | _ => None
  end.

Definition is_textract_call (ev : event) : bool :=
  match ev with CallTextract _ => true | _ => false end.

Section PipelineSpec.
Context {U : PyUnicode} {S : Services}.

Definition run_extractor (e : extractor) (text : pystr) : M analysis_output :=
  match e with
  | InvoiceExtractor => o ← process_invoice text; mret (InvoiceResult o)
  | BankStatementExtractor => o ← process_bank_statement text; mret (BankStatementResult o)
  | GeneralDocumentExtractor =>
      o ← process_general_document text; mret (GeneralDocumentResult o)
  end.

(** The engine that [process_excel_file] picks for a file name. *)
Definition engine_for (file_name : pystr) : excel_engine :=
  if ends_with (py ".xlsx") file_name then openpyxl else xlrd.

(** The entry that Step 2 stores for a processed Excel file. *)
Definition excel_entry (excel_file : ProcessedFile) : AnalysisResult :=
  {| ar_file_name := pf_name excel_file; ar_type := py "excel";
     ar_result := ExcelResult (pf_result excel_file) |}.

End PipelineSpec.

(** ** The text of the local extraction *)

(** What page [n] (counted from 1) adds when [wanted] accepts its text:
    the marker, the text and a blank line. *)
Definition page_entry (wanted : pystr -> bool) (page : nat * pystr) : pystr :=
  if wanted (snd page)
  then py "--- PAGE " ++ str_of_nat (fst page) ++ py " ---" ++ [NL] ++ snd page ++ [NL; NL]
  else [].

(** The pages with their positions, in order. *)
Definition numbered (pages : list pystr) : list (nat * pystr) :=
  combine (seq 1 (length pages)) pages.

Definition local_text (wanted : pystr -> bool) (pages : list pystr) : pystr :=
  clean_financial_text (strip (flat_map (page_entry wanted) (numbered pages))).

(** A page counts when its text is not empty: the wording of the
    specification. *)
Definition non_empty (text : pystr) : bool :=
  match text with [] => false | _ :: _ => true end.

(** A page counts when its text is not empty once trimmed: the test of the
    code. *)
Definition non_blank (text : pystr) : bool := non_empty (strip text).

(** ** Services for the examples *)

Definition demo_table : DataFrame :=
  {| columns := [py "item"; py "amount"];
     rows := [ (0%Z, [CellText (py "rent"); CellNumber 1200%Q]);
               (1%Z, [NaN; NaN]);
               (2%Z, [CellText (py "tax"); NaN]) ] |}.

(** The remote service refuses every call; the parser finds a page of text
    and a page of white space in every file. *)
Definition demo_services : Services :=
  {| InvoiceOutput := pystr;
     BankTransaction := pystr;
     GeneralDocumentOutput := pystr;
     detect_document_text := fun _ => Raise (External (py "credentials"));
     PdfReader := fun _ => Ok [Ok (py "a"); Ok (py " ")];
     read_excel := fun _ _ => Ok demo_table;
     classify_document_llm := fun _ => Ok (py "invoice");
     process_invoice_llm := fun text => Ok text;
     process_bank_statement_llm := fun text => Ok [text];
     process_general_document_llm := fun text => Ok text |}.

Definition demo_pdf : UploadedFile :=
  {| name := py "scan.PDF"; content := []; position := 0 |}.

Definition demo_xlsx : UploadedFile :=
  {| name := py "ledger.xlsx"; content := []; position := 0 |}.

Definition start : world := {| cursor := 0; trace := [] |}.

(** * The rest of the code *)

(** ** app.py: the feedback on a quality score *)

Inductive feedback : Type := HighQuality | MediumQuality | LowQuality.

(** The [if quality_score >= 80 ... elif quality_score >= 60 ... else]
    that follows each extraction. *)
Definition quality_feedback (quality_score : Z) : feedback :=
  if (80 <=? quality_score)%Z then HighQuality
  else if (60 <=? quality_score)%Z then MediumQuality
  else LowQuality.

(** ** The environment and the clients *)

(** [os.environ]: names to values. *)
Abbreviation environ := (gmap pystr pystr).

(** The truth value of [os.environ.get(key)]: set and not empty. *)
Definition env_truthy (env : environ) (key : pystr) : bool :=
  match env !! key with
  | Some (_ :: _) => true
  | _ => false
  end.

(** app.py: [aws_available = bool(AWS_ACCESS_KEY_ID and AWS_SECRET_ACCESS_KEY)] *)
Definition aws_available (env : environ) : bool :=
  env_truthy env (py "AWS_ACCESS_KEY_ID") && env_truthy env (py "AWS_SECRET_ACCESS_KEY").

(** app.py: the check that halts the page when [OPENAI_API_KEY] is missing. *)
Definition app_starts (env : environ) : bool := env_truthy env (py "OPENAI_API_KEY").

(** The keyword arguments of a [boto3.client] call; [credentials] is absent
    when the default credential chain is left to find them. *)
Record client_args : Type := {
  service_name : pystr;
  region_name : pystr;
  credentials : option (pystr * pystr)
}.

(** utils.py: what [get_textract_client] passes to [boto3.client]. *)
Definition textract_client_args (env : environ) : client_args :=
  let region := default (py "us-east-1") (env !! py "AWS_REGION") in
  let aws_access_key_id := env !! py "AWS_ACCESS_KEY_ID" in
  let aws_secret_access_key := env !! py "AWS_SECRET_ACCESS_KEY" in
  match aws_access_key_id, aws_secret_access_key with
  | Some (a :: key_id), Some (b :: secret) =>
      {| service_name := py "textract"; region_name := region;
         credentials := Some (a :: key_id, b :: secret) |}
  | _, _ =>
      {| service_name := py "textract"; region_name := region; credentials := None |}
  end.

(** What can go wrong when a client is set up: the library raises, or
    [get_llm] finds no usable key; both functions wrap what they catch. *)
Inductive init_error : Type :=
  | LibraryError (cause : exn)
  | MissingApiKey                            (* the [ValueError] of [get_llm] *)
  | TextractClientFailed (cause : init_error)(* "Failed to initialize AWS Textract client: ..." *)
  | OpenAIClientFailed (cause : init_error). (* "Could not initialize OpenAI client: ..." *)

Section Clients.
(** [boto3.client] and [ChatOpenAI] build a client or raise. *)
Context {TextractClient ChatModel : Type}.
Variable boto3_client : client_args -> exn + TextractClient.
Variable ChatOpenAI : pystr -> Z -> exn + ChatModel.

(** utils.py: [get_textract_client] *)
Definition get_textract_client (env : environ) : init_error + TextractClient :=
  match boto3_client (textract_client_args env) with
  | inr client => inr client
  | inl e => inl (TextractClientFailed (LibraryError e))
  end.

(** orchestrator.py: [get_llm]. The [ValueError] for a missing key or the
    placeholder is raised inside the [try] and wrapped like any other
    error. *)
Definition get_llm (env : environ) : init_error + ChatModel :=
  let api_key := env !! py "OPENAI_API_KEY" in
  let bad_key :=
    match api_key with
    | None | Some [] => true
    | Some key => bool_decide (key = py "YOUR_OPENAI_API_KEY_HERE")
    end in
  if bad_key then inl (OpenAIClientFailed MissingApiKey)
  else match ChatOpenAI (py "gpt-4o") 0%Z with
       | inr llm => inr llm
       | inl e => inl (OpenAIClientFailed (LibraryError e))
       end.

End Clients.

(** ** Step 2, document by document *)

Section AnalysisSpec.
Context {U : PyUnicode} {S : Services}.

(** The extractor that the branching on [doc_type] selects, if any. *)
Definition extractor_of_label (doc_type : pystr) : option extractor :=
  if bool_decide (doc_type = py "invoice") then Some InvoiceExtractor
  else if bool_decide (doc_type = py "bank_statement") then Some BankStatementExtractor
  else if bool_decide (doc_type ∈ [py "tax_document"; py "receipt";
                                   py "financial_report"; py "other"])
  then Some GeneralDocumentExtractor
  else None.

(** What an extractor returns, without the log. *)
Definition extractor_result (e : extractor) (text : pystr) : result analysis_output :=
  match e with
  | InvoiceExtractor =>
      match process_invoice_llm text with
      | Ok o => Ok (InvoiceResult o) | Raise err => Raise err
      end
  | BankStatementExtractor =>
      match process_bank_statement_llm text with
      | Ok o => Ok (BankStatementResult o) | Raise err => Raise err
      end
  | GeneralDocumentExtractor =>
      match process_general_document_llm text with
      | Ok o => Ok (GeneralDocumentResult o) | Raise err => Raise err
      end
  end.

(** The entry that Step 2 adds for one extracted text: none when the
    classifier fails, the label is unknown or the extractor fails. *)
Definition analysed_entry (r : ExtractedText) : option AnalysisResult :=
  match classify_document_llm (text r) with
  | Raise _ => None
  | Ok doc_type =>
      match extractor_of_label doc_type with
      | None => None
      | Some e =>
          match extractor_result e (text r) with
          | Raise _ => None
          | Ok final_output =>
              Some {| ar_file_name := file_name r; ar_type := doc_type;
                      ar_result := final_output |}
          end
      end
  end.

(** What Step 2 logs for one extracted text. *)
Definition analysed_events (r : ExtractedText) : list event :=
  CallClassifier (text r) ::
  match classify_document_llm (text r) with
  | Raise err => [UiError err]
  | Ok doc_type =>
      match extractor_of_label doc_type with
      | None => [UiWarning (file_name r)]
      | Some e =>
          extractor_call e (text r) ::
          match extractor_result e (text r) with
          | Raise err => [UiError err]
          | Ok _ => []
          end
      end
  end.

(** The entry that Step 1 stores for a text. *)
Definition text_entry (file : UploadedFile) (extracted_text : pystr) : ExtractedText :=
  {| file_name := name file; text := extracted_text;
     quality_score := validate_text_quality extracted_text |}.

End AnalysisSpec.

(** ** The lines of a page in a response *)

Definition is_page_of (page_num : Z) (block : Block) : bool :=
  match BlockType block with
  | PAGE => bool_decide (page_of block = page_num)
  | _ => false
  end.

Definition is_line_of (page_num : Z) (block : Block) : bool :=
  match BlockType block with
  | LINE => bool_decide (page_of block = page_num)
  | _ => false
  end.

(** Two lines with the same sort key. *)
Definition same_key (a b : Block) : Prop := key_lt a b = false /\ key_lt b a = false.

Definition is_pdf_reader_call (ev : event) : bool :=
  match ev with CallPdfReader _ => true | _ => false end.

(** The characters that the substitution table turns into digits. *)
Definition is_confusable (c : N) : bool :=
  (c =? 79)%N || (c =? 108)%N || (c =? 73)%N || (c =? 83)%N.

(** A classifier that answers with a label outside the six categories. *)
Definition memo_services : Services :=
  {| InvoiceOutput := pystr;
     BankTransaction := pystr;
     GeneralDocumentOutput := pystr;
     detect_document_text := fun _ => Ok {| Blocks := None |};
     PdfReader := fun _ => Ok [Ok (py " "); Ok []];
     read_excel := fun _ _ => Raise (External (py "not a workbook"));
     classify_document_llm := fun _ => Ok (py "memo");
     process_invoice_llm := fun text => Ok text;
     process_bank_statement_llm := fun text => Ok [text];
     process_general_document_llm := fun text => Ok text |}.

(** The remote service is out of reach; the parser finds two pages without
    text in every file. *)
Definition offline_services : Services :=
  {| InvoiceOutput := pystr;
     BankTransaction := pystr;
     GeneralDocumentOutput := pystr;
     detect_document_text := fun _ => Raise (External (py "timeout"));
     PdfReader := fun _ => Ok [Ok (py " "); Ok []];
     read_excel := fun _ _ => Raise (External (py "not a workbook"));
     classify_document_llm := fun _ => Ok (py "other");
     process_invoice_llm := fun text => Ok text;
     process_bank_statement_llm := fun text => Ok [text];
     process_general_document_llm := fun text => Ok text |}.

(** The size of a text cut into lines: every line with its line feed. *)
Definition lines_size (lines : list pystr) : nat :=
  list_sum (map (fun line => S (length line)) lines).

Section FeedbackSpec.
Context {U : PyUnicode}.

(** The four tests of the scorer that a high-quality text may fail, one at
    most: keywords, numeric tokens, currency marker, repetition. *)
Definition minor_failures (text : pystr) : nat :=
  length (List.filter id
            [ found_keywords text <? 3; numeric_tokens text <? 3;
              negb (has_currency text); has_repeated text ]).

End FeedbackSpec.

(** ** Trimming, said without [strip] *)

(** A text that neither starts nor ends with white space. *)
Definition clean_ends (s : pystr) : Prop :=
  (forall c r, s = c :: r -> is_space c = false) /\
  (forall c r, s = r ++ [c] -> is_space c = false).

(** [t] is [s] without the white space at its two ends. *)
Definition trims_to (s t : pystr) : Prop :=
  exists pre post, s = pre ++ t ++ post /\
    forallb is_space pre = true /\ forallb is_space post = true /\ clean_ends t.

(** ** The layout of a response, read off its blocks *)

(** The page of a block: page 1 when the block names none. *)
Definition block_page (block : Block) : Z :=
  match Page block with Some page_num => page_num | None => 1%Z end.

Definition is_page_block (page_num : Z) (block : Block) : bool :=
  match BlockType block with
  | PAGE => bool_decide (block_page block = page_num)
  | _ => false
  end.

Definition is_line_block (page_num : Z) (block : Block) : bool :=
  match BlockType block with
  | LINE => bool_decide (block_page block = page_num)
  | _ => false
  end.

(** A page exists as soon as a PAGE block or a LINE block names it. *)
Definition page_seen (page_num : Z) (blocks : list Block) : bool :=
  existsb (fun b => is_page_block page_num b || is_line_block page_num b) blocks.

(** The blocks that follow the last PAGE block of a page; all the blocks
    when the page has no PAGE block. *)
Fixpoint after_last_page (page_num : Z) (blocks : list Block) : list Block :=
  match blocks with
  | [] => []
  | b :: rest =>
      if existsb (is_page_block page_num) rest then after_last_page page_num rest
      else if is_page_block page_num b then rest
      else b :: rest
  end.

(** The lines of a page that reach the text. *)
Definition page_lines (page_num : Z) (blocks : list Block) : list Block :=
  List.filter (is_line_block page_num) (after_last_page page_num blocks).

(** Top, then left; a line without geometry stands at 0. *)
Definition layout_order (a b : Block) : Prop :=
  let top x := match Top x with Some t => t | None => 0%Q end in
  let left x := match Left x with Some l => l | None => 0%Q end in
  (top a < top b)%Q \/ (top a == top b /\ left a <= left b)%Q.

(** What a line adds to the text: its trimmed text and a line feed, or
    nothing when it has no text or only white space. *)
Definition layout_line (line : Block) : pystr :=
  match Text line with
  | None => []
  | Some text =>
      match strip text with
      | [] => []
      | trimmed => trimmed ++ [NL]
      end
  end.

(** ** Step 1, file by file *)

Section BatchSpec.
Context {U : PyUnicode} {S : Services}.

(** What Step 1 makes of one upload: a table for a name that ends in
    [.xlsx] or [.xls], else the text of the gateway with its score. *)
Definition file_result (aws : bool) (file : UploadedFile)
    : result (ExtractedText + ProcessedFile) :=
  if ends_with (py ".xlsx") (name file) || ends_with (py ".xls") (name file) then
    match read_excel (engine_for (name file)) (content file) with
    | Ok df => Ok (inr {| pf_name := name file;
                          pf_result := fillna_empty (dropna_all df) |})
    | Raise e => Raise (ExcelProcessingFailed e)
    end
  else
    match fst (extract_text_hybrid file aws {| cursor := position file; trace := [] |}) with
    | Ok extracted_text => Ok (inl (text_entry file extracted_text))
    | Raise e => Raise e
    end.

(** What Step 1 logs for one upload. *)
Definition file_events (aws : bool) (file : UploadedFile) : list event :=
  if ends_with (py ".xlsx") (name file) || ends_with (py ".xls") (name file)
  then [CallReadExcel (name file)]
  else trace (snd (extract_text_hybrid file aws {| cursor := position file; trace := [] |})).

Definition succeeds (aws : bool) (file : UploadedFile) : Prop :=
  exists entry, file_result aws file = Ok entry.

(** The texts and the tables among the results of a batch, in order. *)
Definition batch_texts (aws : bool) (files : list UploadedFile) : list ExtractedText :=
  omap (fun file => match file_result aws file with
                    | Ok (inl t) => Some t | _ => None end) files.

Definition batch_tables (aws : bool) (files : list UploadedFile) : list ProcessedFile :=
  omap (fun file => match file_result aws file with
                    | Ok (inr p) => Some p | _ => None end) files.

End BatchSpec.

(** ** An upload with a capital extension *)

(** The remote service reads one line in every file; the classifier calls
    every text an invoice. *)
Definition answering_services : Services :=
  {| InvoiceOutput := pystr;
     BankTransaction := pystr;
     GeneralDocumentOutput := pystr;
     detect_document_text := fun _ =>
       Ok {| Blocks := Some [ {| BlockType := LINE; Page := Some 1%Z; Top := None;
                                 Left := None; Text := Some (py "rent 1200") |} ] |};
     PdfReader := fun _ => Raise (External (py "not a PDF"));
     read_excel := fun _ _ => Ok demo_table;
     classify_document_llm := fun _ => Ok (py "invoice");
     process_invoice_llm := fun text => Ok text;
     process_bank_statement_llm := fun text => Ok [text];
     process_general_document_llm := fun text => Ok text |}.

Definition capital_xlsx : UploadedFile :=
  {| name := py "LEDGER.XLSX"; content := []; position := 0 |}.

(** ** A table cell after [fillna('')] *)

(** [c'] is [c] with the empty string for a missing value. *)
Definition filled (c c' : cell) : Prop :=
  (c = NaN /\ c' = CellText []) \/ (c <> NaN /\ c' = c).

(** A row with at least one value. *)
Definition has_value (row : Z * list cell) : Prop :=
  exists c, In c (snd row) /\ c <> NaN.

(** The rows that [dropna(how='all')] keeps: those with a value, in their
    order. *)
Inductive kept_rows : list (Z * list cell) -> list (Z * list cell) -> Prop :=
  | kept_nil : kept_rows [] []
  | kept_keep (row : Z * list cell) (rows kept : list (Z * list cell)) :
      has_value row -> kept_rows rows kept -> kept_rows (row :: rows) (row :: kept)
  | kept_drop (row : Z * list cell) (rows kept : list (Z * list cell)) :
      ~ has_value row -> kept_rows rows kept -> kept_rows (row :: rows) kept.

(** [table] is [df] cleaned: the same columns, the rows of [df] that have a
    value, under their index labels, with the empty string in every
    missing cell. *)
Definition cleaned (df table : DataFrame) : Prop :=
  columns table = columns df /\
  exists kept, kept_rows (rows df) kept /\
    Forall2 (fun row row' => fst row' = fst row /\ Forall2 filled (snd row) (snd row'))
            kept (rows table).

(** * The embedding on concrete inputs *)

Example replace_non_overlapping : replace (py "aa") (py "b") (py "aaaaa") = py "bba".
Proof. reflexivity. Qed.

Example replace_empty_pattern : replace [] (py "-") (py "abc") = py "-a-b-c-".
Proof. reflexivity. Qed.

Example split_empty : split_on NL [] = [[]].
Proof. reflexivity. Qed.

Example split_lines : split_on NL (py "a" ++ [NL; NL] ++ py "b") = [py "a"; []; py "b"].
Proof. reflexivity. Qed.

Example strip_both_ends : strip ([9; 32] ++ py "a b" ++ [13; 10])%N = py "a b".
Proof. reflexivity. Qed.

Example clean_collapses_blank_lines :
  clean_financial_text
    ([NL; NL] ++ py "  a b  " ++ [NL; 32; NL; NL; 32; NL]%N ++ py "c TotaI " ++ [NL; NL; NL])
  = py "a b" ++ [NL; NL] ++ py "c Tota1" ++ [NL].
Proof. reflexivity. Qed.

Example fix_statement : fix_common_ocr_errors (py "Statement Index") = py "5tatement 1ndex".
Proof. reflexivity. Qed.

Example score_empty : @validate_text_quality ascii_tables [] = 0%Z.
Proof. reflexivity. Qed.

Example score_short : @validate_text_quality ascii_tables (py "  total  ") = 0%Z.
Proof. reflexivity. Qed.

Example score_invoice_line :
  @validate_text_quality ascii_tables (py "Invoice total amount: $100 on 2024-01-05") = 70%Z.
Proof. reflexivity. Qed.

Example score_clamped_at_zero :
  @validate_text_quality ascii_tables (py "aaaa!!!!!!!!!!!") = 0%Z.
Proof. reflexivity. Qed.

Example digit_runs :
  @findall_digits ascii_tables [] (py "12 a3 44b5") = [py "12"; py "3"; py "44"; py "5"].
Proof. reflexivity. Qed.

Example repeated_runs : findall_repeated 0 (py "aaaaabbbbccc dddd") = py "abd".
Proof. reflexivity. Qed.

Example page_marker_number : page_marker 11 = py "--- PAGE 12 ---" ++ [NL].
Proof. reflexivity. Qed.

Example excel_cleaning :
  rows (fillna_empty (dropna_all demo_table))
  = [ (0%Z, [CellText (py "rent"); CellNumber 1200%Q]);
      (2%Z, [CellText (py "tax"); CellText []]) ].
Proof. reflexivity. Qed.

(** The remote call fails, the local extractor answers, and the log shows
    the attempt, the warning and the parser call. *)
Example hybrid_falls_back :
  @extract_text_hybrid ascii_tables demo_services demo_pdf true start
  = (Ok (py "--- PAGE 1 ---" ++ [NL] ++ py "a"),
     {| cursor := 0;
        trace := [CallTextract (name demo_pdf); FallbackWarning (name demo_pdf);
                  CallPdfReader (name demo_pdf)] |}).
Proof. reflexivity. Qed.

(** A spreadsheet with an upper-case extension is not taken for one: it goes
    down the text path and fails there. *)
Example upper_case_extension :
  fst (@extract_one ascii_tables demo_services false
         {| extracted_texts := []; processed_files := [] |}
         {| name := py "LEDGER.XLSX"; content := []; position := 0 |} start)
  = Raise (UnsupportedFileType (py "ledger.xlsx")).
Proof. reflexivity. Qed.

(** * Proofs *)

(** ** Facts about the string operations *)

Lemma starts_with_app (p r : pystr) : starts_with p (p ++ r) = true.
Proof. induction p as [|a p IH]; simpl; [done|]. by rewrite N.eqb_refl. Qed.

Lemma starts_with_inv (p s : pystr) :
  starts_with p s = true -> exists r, s = p ++ r.
Proof.
  revert s. induction p as [|a p IH]; intros s H; simpl in *.
  - by exists s.
  - destruct s as [|b s]; [done|].
    apply andb_true_iff in H as [Hab Hs]. apply N.eqb_eq in Hab as ->.
    destruct (IH _ Hs) as [r ->]. by exists r.
Qed.

Lemma starts_with_spec (p s : pystr) :
  starts_with p s = true <-> exists r, s = p ++ r.
Proof.
  split; [apply starts_with_inv|]. intros [r ->]. apply starts_with_app.
Qed.

Lemma contains_unfold (p s : pystr) :
  contains p s = starts_with p s || match s with [] => false | _ :: r => contains p r end.
Proof. by destruct s. Qed.

(** [p in s] holds exactly when [s] can be cut around a copy of [p]. *)
Lemma contains_spec (p s : pystr) :
  contains p s = true <-> exists pre post, s = pre ++ p ++ post.
Proof.
  split.
  - induction s as [|c s IH]; simpl; intros H.
    + rewrite orb_false_r in H. apply starts_with_inv in H as [r ->].
      by exists [], r.
    + apply orb_true_iff in H as [H|H].
      * apply starts_with_inv in H as [r ->]. by exists [], r.
      * destruct (IH H) as (pre & post & ->). by exists (c :: pre), post.
  - intros (pre & post & ->). induction pre as [|c pre IH]; simpl.
    + by rewrite contains_unfold, starts_with_app.
    + rewrite IH. apply orb_true_r.
Qed.

Lemma replace_from_skip (k : nat) (old new text : pystr) :
  replace_from k old new text = replace_from 0 old new (drop k text).
Proof.
  revert k. induction text as [|c rest IH]; intros k.
  - by destruct k.
  - destruct k as [|k]; [done|]. simpl. apply IH.
Qed.

(** The equation of the scan: a match is replaced and skipped as a whole. *)
Lemma replace_from_cons (old new : pystr) (c : N) (rest : pystr) :
  replace_from 0 old new (c :: rest) =
    if starts_with old (c :: rest)
    then new ++ replace_from 0 old new (drop (length old - 1) rest)
    else c :: replace_from 0 old new rest.
Proof. simpl replace_from at 1. by rewrite replace_from_skip. Qed.

(** A rule whose pattern has a character that the text lacks changes
    nothing. *)
Lemma replace_from_absent (c : N) (old new text : pystr) :
  In c old -> ~ In c text -> replace_from 0 old new text = text.
Proof.
  intros Hold. induction text as [|x rest IH]; intros Hnot; [done|].
  rewrite replace_from_cons.
  destruct (starts_with old (x :: rest)) eqn:E.
  - apply starts_with_inv in E as [r E]. exfalso. apply Hnot.
    rewrite E. apply in_or_app. by left.
  - f_equal. apply IH. intros Hin. apply Hnot. by right.
Qed.

(** A rule that maps a pattern to itself changes nothing. *)
Lemma replace_from_same (old text : pystr) :
  old <> [] -> replace_from 0 old old text = text.
Proof.
  intros Hne. remember (length text) as n eqn:Hn.
  revert text Hn. induction n as [n IH] using lt_wf_ind. intros text Hn.
  destruct text as [|c rest]; [done|].
  rewrite replace_from_cons.
  destruct (starts_with old (c :: rest)) eqn:E; cycle 1.
  { f_equal. apply (IH (length rest)); [simpl in Hn; lia | done]. }
  apply starts_with_inv in E as [r E].
  destruct old as [|a old']; [done|]. simpl in E. injection E as -> ->.
  replace (length (a :: old') - 1) with (length old') by (simpl; lia).
  rewrite drop_app_length.
  rewrite (IH (length r)); [done| |done].
  simpl in Hn. rewrite length_app in Hn. lia.
Qed.

Lemma replace_same (old text : pystr) : old <> [] -> replace old old text = text.
Proof. intros H. destruct old; [done|]. by apply replace_from_same. Qed.

Lemma replace_absent (c : N) (old new text : pystr) :
  In c old -> ~ In c text -> replace old new text = text.
Proof.
  intros H1 H2. destruct old as [|a old]; [done|].
  by apply (replace_from_absent c).
Qed.

(** A one-character rule is a map over the characters. *)
Lemma replace_char (a b : N) (text : pystr) :
  replace [a] [b] text = map (fun c => if (c =? a)%N then b else c) text.
Proof.
  unfold replace. induction text as [|c rest IH]; [done|].
  rewrite replace_from_cons.
  replace (starts_with [a] (c :: rest)) with (c =? a)%N
    by (simpl; rewrite andb_true_r; apply N.eqb_sym).
  change (length [a] - 1) with 0. rewrite drop_0, IH.
  simpl map. by destruct (c =? a)%N.
Qed.

(** ** The substitution table *)

Lemma apply_replacements_app (t1 t2 : list (pystr * pystr)) (text : pystr) :
  apply_replacements (t1 ++ t2) text = apply_replacements t2 (apply_replacements t1 text).
Proof. apply fold_left_app. Qed.

Lemma fix_char_not_l (c : N) : fix_char c <> 108%N.
Proof. unfold fix_char. repeat case_match; try done; by apply N.eqb_neq. Qed.

Lemma fix_char_not_I (c : N) : fix_char c <> 73%N.
Proof. unfold fix_char. repeat case_match; try done; by apply N.eqb_neq. Qed.

Lemma fix_char_idem (c : N) : fix_char (fix_char c) = fix_char c.
Proof.
  unfold fix_char.
  repeat (case_match; try done);
    repeat match goal with
           | H : (_ =? _)%N = true |- _ => apply N.eqb_eq in H
           | H : (_ =? _)%N = false |- _ => apply N.eqb_neq in H
           end; subst; done.
Qed.

Lemma no_l_after_fix (text : pystr) : ~ In 108%N (map fix_char text).
Proof. intros (c & H & _)%in_map_iff. by apply (fix_char_not_l c). Qed.

Lemma no_I_after_fix (text : pystr) : ~ In 73%N (map fix_char text).
Proof. intros (c & H & _)%in_map_iff. by apply (fix_char_not_I c). Qed.

(** The first seven rules: three that map a currency sign to itself, then
    the four one-character rules. *)
Lemma first_rules_map (text : pystr) :
  apply_replacements (take 7 replacements) text = map fix_char text.
Proof.
  unfold apply_replacements. cbn [take replacements fold_left fst snd py].
  rewrite !replace_same by done.
  change (replace [N_of_ascii "S"] [N_of_ascii "5"]) with (replace [83%N] [53%N]).
  change (replace [N_of_ascii "I"] [N_of_ascii "1"]) with (replace [73%N] [49%N]).
  change (replace [N_of_ascii "l"] [N_of_ascii "1"]) with (replace [108%N] [49%N]).
  change (replace [N_of_ascii "O"] [N_of_ascii "0"]) with (replace [79%N] [48%N]).
  rewrite !replace_char, !map_map. apply map_ext. intros c. unfold fix_char.
  repeat (case_match; try done);
    repeat match goal with
           | H : (_ =? _)%N = true |- _ => apply N.eqb_eq in H
           | H : (_ =? _)%N = false |- _ => apply N.eqb_neq in H
           end; subst; done.
Qed.

(** Every later rule leaves a text without [l] and [I] as it is. *)
Lemma later_rules_inert :
  Forall (fun rule => forall text : pystr,
            ~ In 108%N text -> ~ In 73%N text ->
            replace (fst rule) (snd rule) text = text)
         (drop 7 replacements).
Proof.
  cbn [drop replacements].
  repeat constructor; intros text Hl HI; cbn [fst snd];
    first [ by apply replace_same
          | apply (replace_absent 108%N); [vm_compute; tauto | done]
          | apply (replace_absent 73%N); [vm_compute; tauto | done] ].
Qed.

Lemma inert_rules_apply (rules : list (pystr * pystr)) (text : pystr) :
  Forall (fun rule => forall text : pystr,
            ~ In 108%N text -> ~ In 73%N text ->
            replace (fst rule) (snd rule) text = text) rules ->
  ~ In 108%N text -> ~ In 73%N text ->
  apply_replacements rules text = text.
Proof.
  intros H Hl HI. induction H as [|rule rules Hr _ IH]; [done|].
  unfold apply_replacements in *. simpl. rewrite Hr by done. apply IH.
Qed.

(** From the seventh rule on, the text is the character map of the input
    and stays so. *)
Lemma prefix_rules_map (k : nat) (text : pystr) :
  7 <= k -> apply_replacements (take k replacements) text = map fix_char text.
Proof.
  intros Hk.
  replace (take k replacements)
    with (take 7 replacements ++ take (k - 7) (drop 7 replacements)).
  2:{ rewrite <- (take_drop 7 (take k replacements)), take_take, take_drop_commute.
      replace (7 `min` k) with 7 by lia. by replace (7 + (k - 7)) with k by lia. }
  rewrite apply_replacements_app, first_rules_map.
  apply inert_rules_apply; [|apply no_l_after_fix|apply no_I_after_fix].
  apply Forall_take, later_rules_inert.
Qed.

(** The whole table computes the character map of its four one-character
    rules. *)
Lemma fix_common_ocr_errors_map (text : pystr) :
  fix_common_ocr_errors text = map fix_char text.
Proof.
  unfold fix_common_ocr_errors.
  rewrite <- (prefix_rules_map (length replacements)) by (vm_compute; lia).
  by rewrite firstn_all.
Qed.

Lemma contains_absent (c : N) (p s : pystr) :
  In c p -> ~ In c s -> contains p s = false.
Proof.
  intros Hp Hs. apply not_true_is_false.
  intros (pre & post & ->)%contains_spec. apply Hs.
  rewrite !in_app_iff. tauto.
Qed.

(** C10: for every input, when the loop reaches one of the rules
    lnvoice->Invoice, lnv->Inv, TotaI->Total or 0l->01, the rules l->1 and
    I->1 stand earlier in the table and have left no [l] and no [I] in the
    text, so the rule finds no occurrence of its pattern and changes
    nothing; the table as a whole is the character map of its one-character
    rules, and [fix_common_ocr_errors "lnvoice"] is ["1nvoice"], not
    ["Invoice"]. *)
Theorem multichar_rules_never_fire (text : pystr) (k : nat) (old new : pystr) :
  replacements !! k = Some (old, new) ->
  In (old, new) multichar_rules ->
  let reached := apply_replacements (take k replacements) text in
  (replacements !! 4 = Some (py "l", py "1") /\
   replacements !! 5 = Some (py "I", py "1") /\ 5 < k) /\
  ~ In 108%N reached /\ ~ In 73%N reached /\
  contains old reached = false /\
  replace old new reached = reached /\
  fix_common_ocr_errors text = map fix_char text /\
  fix_common_ocr_errors (py "lnvoice") = py "1nvoice" /\
  fix_common_ocr_errors (py "lnvoice") <> py "Invoice".
Proof.
  intros Hk Hin reached.
  assert (Hge : 7 <= k).
  { destruct (le_lt_dec 7 k) as [|Hlt]; [done|]. exfalso.
    do 7 (destruct k as [|k]; [vm_compute in Hk; injection Hk as <- <-;
                                vm_compute in Hin; intuition discriminate|]).
    lia. }
  assert (Hreached : reached = map fix_char text) by by apply prefix_rules_map.
  assert (Hchar : In 108%N old \/ In 73%N old).
  { vm_compute in Hin. destruct Hin as [H|[H|[H|[H|[]]]]]; injection H as <- <-;
      vm_compute; tauto. }
  split; [split_and!; [done|done|lia]|].
  rewrite Hreached.
  split; [apply no_l_after_fix|]. split; [apply no_I_after_fix|].
  split.
  { destruct Hchar as [H|H];
      [apply (contains_absent 108%N)|apply (contains_absent 73%N)];
      auto using no_l_after_fix, no_I_after_fix. }
  split.
  { destruct Hchar as [H|H];
      [apply (replace_absent 108%N)|apply (replace_absent 73%N)];
      auto using no_l_after_fix, no_I_after_fix. }
  split; [apply fix_common_ocr_errors_map|]. by vm_compute.
Qed.

Lemma multichar_rules_never_fire_witness :
  contains (py "lnvoice") (apply_replacements (take 7 replacements) (py "lnvoice TotaI")) = false /\
  replace (py "lnvoice") (py "Invoice")
      (apply_replacements (take 7 replacements) (py "lnvoice TotaI"))
    = apply_replacements (take 7 replacements) (py "lnvoice TotaI").
Proof.
  pose proof (multichar_rules_never_fire (py "lnvoice TotaI") 7
                (py "lnvoice") (py "Invoice") eq_refl (or_introl eq_refl)) as H.
  simpl in H. tauto.
Defined.

(** ** Trimming *)

Lemma lstrip_idem (s : pystr) : lstrip (lstrip s) = lstrip s.
Proof.
  induction s as [|c r IH]; [done|]. simpl.
  destruct (is_space c) eqn:E; [done|]. simpl. by rewrite E.
Qed.

Lemma lstrip_keep (c : N) (r : pystr) :
  is_space c = false -> lstrip (c :: r) = c :: r.
Proof. intros E. simpl. by rewrite E. Qed.

Lemma lstrip_snoc (s : pystr) (c : N) :
  is_space c = false -> lstrip (s ++ [c]) = lstrip s ++ [c].
Proof.
  intros E. induction s as [|x r IH]; simpl; [by rewrite E|].
  by destruct (is_space x).
Qed.

Lemma lstrip_In (c : N) (s : pystr) : In c (lstrip s) -> In c s.
Proof.
  induction s as [|x r IH]; [done|]. simpl.
  destruct (is_space x); [right; auto | done].
Qed.

Lemma rstrip_cons (c : N) (r : pystr) :
  is_space c = false -> rstrip (c :: r) = c :: rstrip r.
Proof.
  intros E. unfold rstrip. simpl rev at 2.
  by rewrite lstrip_snoc, rev_app_distr.
Qed.

Lemma rstrip_idem (s : pystr) : rstrip (rstrip s) = rstrip s.
Proof. unfold rstrip. by rewrite rev_involutive, lstrip_idem. Qed.

Lemma lstrip_strip (s : pystr) : lstrip (strip s) = strip s.
Proof.
  unfold strip. destruct (lstrip s) as [|c r] eqn:E; [done|].
  assert (Hc : is_space c = false).
  { clear -E. induction s as [|x s IH]; [done|]. simpl in E.
    destruct (is_space x) eqn:Ex; [auto|]. by injection E as <- _. }
  rewrite rstrip_cons by done. by apply lstrip_keep.
Qed.

Lemma strip_idem (s : pystr) : strip (strip s) = strip s.
Proof.
  unfold strip at 1. rewrite lstrip_strip. unfold strip. apply rstrip_idem.
Qed.

Lemma strip_In (c : N) (s : pystr) : In c (strip s) -> In c s.
Proof.
  unfold strip, rstrip. intros H.
  apply lstrip_In. apply in_rev. apply lstrip_In. by apply in_rev.
Qed.

Lemma is_space_fix_char (c : N) : is_space (fix_char c) = is_space c.
Proof.
  unfold fix_char.
  repeat (case_match; try done);
    repeat match goal with
           | H : (_ =? _)%N = true |- _ => apply N.eqb_eq in H
           end; by subst.
Qed.

Lemma lstrip_fix (s : pystr) : lstrip (map fix_char s) = map fix_char (lstrip s).
Proof.
  induction s as [|c r IH]; [done|]. simpl.
  rewrite is_space_fix_char. by destruct (is_space c).
Qed.

Lemma strip_fix (s : pystr) : strip (map fix_char s) = map fix_char (strip s).
Proof.
  unfold strip, rstrip. by rewrite lstrip_fix, <- map_rev, lstrip_fix, map_rev.
Qed.

(** ** Lines *)

Lemma split_on_not_nil (sep : N) (text : pystr) : split_on sep text <> [].
Proof.
  destruct text as [|c r]; [done|]. simpl.
  destruct (c =? sep)%N; [done|]. by destruct (split_on sep r).
Qed.

Lemma split_on_no_sep (sep : N) (text : pystr) :
  Forall (fun line => ~ In sep line) (split_on sep text).
Proof.
  induction text as [|c r IH]; simpl.
  - constructor; [|constructor]. by intros [].
  - destruct (c =? sep)%N eqn:E.
    + constructor; [by intros []|done].
    + apply N.eqb_neq in E. destruct (split_on sep r) as [|l ls].
      * constructor; [|constructor]. intros [H|[]]. by subst.
      * inversion IH as [|? ? Hl Hls]; subst. constructor; [|done].
        intros [H|H]; [by subst|done].
Qed.

Lemma split_on_line (sep : N) (line rest : pystr) :
  ~ In sep line ->
  split_on sep (line ++ sep :: rest) = line :: split_on sep rest.
Proof.
  intros H. induction line as [|c r IH]; simpl.
  - by rewrite N.eqb_refl.
  - destruct (c =? sep)%N eqn:E.
    + apply N.eqb_eq in E. exfalso. apply H. by left.
    + rewrite IH; [done|]. intros Hin. apply H. by right.
Qed.

Lemma split_on_single (sep : N) (line : pystr) :
  ~ In sep line -> split_on sep line = [line].
Proof.
  intros H. induction line as [|c r IH]; [done|]. simpl.
  destruct (c =? sep)%N eqn:E.
  - apply N.eqb_eq in E. exfalso. apply H. by left.
  - rewrite IH; [done|]. intros Hin. apply H. by right.
Qed.

(** Splitting a joined text gives the lines back. *)
Lemma split_on_join (sep : N) (lines : list pystr) :
  lines <> [] -> Forall (fun line => ~ In sep line) lines ->
  split_on sep (join [sep] lines) = lines.
Proof.
  intros Hne H. induction H as [|l ls Hl Hls IH]; [done|].
  destruct ls as [|l2 ls].
  - simpl. by apply split_on_single.
  - change (join [sep] (l :: l2 :: ls)) with (l ++ sep :: join [sep] (l2 :: ls)).
    rewrite split_on_line by done. f_equal. by apply IH.
Qed.

Lemma map_join (f : N -> N) (sep : N) (lines : list pystr) :
  map f (join [sep] lines) = join [f sep] (map (map f) lines).
Proof.
  induction lines as [|l ls IH]; [done|].
  destruct ls as [|l2 ls]; [done|].
  change (join [sep] (l :: l2 :: ls)) with (l ++ sep :: join [sep] (l2 :: ls)).
  rewrite map_app, map_cons, IH. done.
Qed.

(** ** The line loop *)

Lemma lead_of_snoc (kept : list pystr) (line : pystr) :
  lead_of (kept ++ [line]) = match line with [] => true | _ :: _ => false end.
Proof. unfold lead_of. by rewrite last_snoc. Qed.

(** The loop that appends to [cleaned_lines] computes [collapse] on the
    trimmed lines. *)
Lemma fold_clean_step (lines kept : list pystr) :
  fold_left clean_step lines kept = kept ++ collapse (lead_of kept) (map strip lines).
Proof.
  revert kept. induction lines as [|line rest IH]; intros kept; simpl.
  - by rewrite app_nil_r.
  - rewrite IH. unfold clean_step. destruct (strip line) as [|c s] eqn:E.
    + unfold lead_of at 2. destruct (last kept) as [[|? ?]|] eqn:El.
      * unfold lead_of. by rewrite El.
      * by rewrite lead_of_snoc, <- app_assoc.
      * unfold lead_of. by rewrite El.
    + by rewrite lead_of_snoc, <- app_assoc.
Qed.

Lemma clean_lines_collapse (lines : list pystr) :
  clean_lines lines = collapse true (map strip lines).
Proof. unfold clean_lines. by rewrite fold_clean_step. Qed.

Lemma collapse_well_spaced (lead : bool) (lines : list pystr) :
  well_spaced lead (collapse lead lines) = true.
Proof.
  revert lead. induction lines as [|[|c l] rest IH]; intros lead; simpl; [done| |done].
  destruct lead; simpl; by rewrite IH.
Qed.

Lemma collapse_fixed (lead : bool) (lines : list pystr) :
  well_spaced lead lines = true -> collapse lead lines = lines.
Proof.
  revert lead. induction lines as [|[|c l] rest IH]; intros lead H; simpl in *; [done| |].
  - apply andb_true_iff in H as [Hl H]. destruct lead; [done|]. by rewrite IH.
  - by rewrite IH.
Qed.

Lemma collapse_Forall (P : pystr -> Prop) (lead : bool) (lines : list pystr) :
  Forall P lines -> Forall P (collapse lead lines).
Proof.
  intros H. revert lead. induction H as [|[|c l] rest Hl _ IH]; intros lead; simpl.
  - done.
  - destruct lead; [apply IH|constructor; [done|apply IH]].
  - constructor; [done|apply IH].
Qed.


Lemma well_spaced_map_fix (lead : bool) (lines : list pystr) :
  well_spaced lead (map (map fix_char) lines) = well_spaced lead lines.
Proof.
  revert lead. induction lines as [|[|c l] rest IH]; intros lead; simpl; [done| |done].
  by rewrite IH.
Qed.



(** ** The normaliser as a whole *)

Lemma clean_financial_text_eq (text : pystr) :
  clean_financial_text text = join [NL] (map (map fix_char) (kept_lines text)).
Proof.
  destruct text as [|c r]; [done|].
  unfold clean_financial_text.
  rewrite fix_common_ocr_errors_map, clean_lines_collapse.
  apply (map_join fix_char NL).
Qed.

Lemma kept_lines_trimmed (text : pystr) :
  Forall (fun line => strip line = line) (kept_lines text).
Proof.
  apply collapse_Forall, List.Forall_forall.
  intros line (l & <- & _)%in_map_iff. apply strip_idem.
Qed.

Lemma kept_lines_no_NL (text : pystr) :
  Forall (fun line => ~ In NL line) (kept_lines text).
Proof.
  apply collapse_Forall, List.Forall_forall.
  intros line (l & <- & Hl)%in_map_iff Hin. apply strip_In in Hin.
  pose proof (split_on_no_sep NL text) as H.
  rewrite List.Forall_forall in H. by apply (H l).
Qed.

Lemma fixed_lines_no_NL (lines : list pystr) :
  Forall (fun line => ~ In NL line) lines ->
  Forall (fun line => ~ In NL line) (map (map fix_char) lines).
Proof.
  intros H. apply List.Forall_map. eapply List.Forall_impl; [|exact H].
  intros line Hl (c & Hc & Hin)%in_map_iff. apply Hl.
  replace NL with c; [done|]. revert Hc. unfold fix_char, NL.
  repeat (case_match; try done).
Qed.

(** The lines of the output. *)
Lemma clean_financial_text_lines (text : pystr) :
  split_on NL (clean_financial_text text) =
    match kept_lines text with
    | [] => [[]]
    | _ :: _ => map (map fix_char) (kept_lines text)
    end.
Proof.
  rewrite clean_financial_text_eq.
  destruct (kept_lines text) as [|l ls] eqn:E; [done|]. rewrite <- E.
  apply split_on_join; [by rewrite E|].
  apply fixed_lines_no_NL, kept_lines_no_NL.
Qed.

Lemma kept_lines_well_spaced (text : pystr) : well_spaced true (kept_lines text) = true.
Proof. apply collapse_well_spaced. Qed.


Lemma fixed_lines_trimmed (lines : list pystr) :
  Forall (fun line => strip line = line) lines ->
  Forall (fun line => strip line = line) (map (map fix_char) lines).
Proof.
  intros H. apply List.Forall_map. eapply List.Forall_impl; [|exact H].
  intros line Hl. simpl. by rewrite strip_fix, Hl.
Qed.

Lemma lstrip_head (s r : pystr) (c : N) : lstrip s = c :: r -> is_space c = false.
Proof.
  induction s as [|x s IH]; [done|]. simpl.
  destruct (is_space x) eqn:E; [done|]. by intros [= <- _].
Qed.

Lemma lstrip_split (s : pystr) :
  exists pre, s = pre ++ lstrip s /\ forallb is_space pre = true.
Proof.
  induction s as [|c r (pre & IH & Hpre)]; [by exists []|]. simpl.
  destruct (is_space c) eqn:E; [|by exists []].
  exists (c :: pre). simpl. rewrite E, Hpre. split; [by rewrite <- IH|done].
Qed.

(** What [strip] returns has no white space at its ends. *)
Lemma strip_clean_ends (s : pystr) : clean_ends (strip s).
Proof.
  split; intros c r E.
  - pose proof (lstrip_strip s) as H. rewrite E in H. by apply (lstrip_head _ r c H).
  - unfold strip, rstrip in E. apply (f_equal (@rev N)) in E.
    rewrite rev_involutive, rev_app_distr in E. by apply (lstrip_head _ _ c E).
Qed.

(** [strip] removes the white space at the two ends and nothing else. *)
Lemma strip_trims (s : pystr) : trims_to s (strip s).
Proof.
  destruct (lstrip_split s) as (pre & Hs & Hpre).
  destruct (lstrip_split (rev (lstrip s))) as (post & Ht & Hpost).
  exists pre, (rev post). split_and!; [| done | | apply strip_clean_ends].
  - rewrite Hs at 1. f_equal. unfold strip, rstrip.
    rewrite <- rev_app_distr, <- Ht. by rewrite rev_involutive.
  - rewrite forallb_forall in *. intros c Hc. apply Hpost. by apply in_rev.
Qed.




Lemma map_strip_trimmed (lines : list pystr) :
  Forall (fun line => strip line = line) lines -> map strip lines = lines.
Proof. induction 1 as [|l ls Hl _ IH]; simpl; congruence. Qed.

(** C5: normalising a normalised text changes nothing. *)
Theorem clean_financial_text_idempotent (x : pystr) :
  clean_financial_text (clean_financial_text x) = clean_financial_text x.
Proof.
  rewrite (clean_financial_text_eq (clean_financial_text x)).
  unfold kept_lines at 1. rewrite clean_financial_text_lines.
  rewrite (clean_financial_text_eq x).
  pose proof (kept_lines_trimmed x) as Htrim.
  pose proof (kept_lines_well_spaced x) as Hws.
  destruct (kept_lines x) as [|l ls] eqn:E; [done|].
  rewrite map_strip_trimmed by by apply fixed_lines_trimmed.
  rewrite collapse_fixed by by rewrite well_spaced_map_fix.
  rewrite map_map. f_equal. apply map_ext. intros line.
  rewrite map_map. apply map_ext, fix_char_idem.
Qed.

(** ** The quality scorer *)

Lemma count_of_filter {A : Type} (P : A -> Prop) (f : A -> bool) (l : list A) :
  (forall x, f x = true <-> P x) -> count_of P l (length (List.filter f l)).
Proof.
  intros Hf. induction l as [|x l IH]; simpl; [constructor|].
  destruct (f x) eqn:E.
  - simpl. constructor; [by apply Hf | done].
  - constructor; [|done]. intros HP. apply Hf in HP. congruence.
Qed.

Lemma count_of_unique {A : Type} (P : A -> Prop) (l : list A) (n m : nat) :
  count_of P l n -> count_of P l m -> n = m.
Proof.
  intros Hn. revert m. induction Hn as [|x l n HP _ IH|x l n HP _ IH]; intros m Hm.
  - by inversion Hm.
  - inversion Hm; subst; [f_equal; auto | done].
  - inversion Hm; subst; [done | auto].
Qed.

Lemma run_length_ge3 (c : N) (s : pystr) :
  3 <= run_length c s <-> exists post, s = [c; c; c] ++ post.
Proof.
  split.
  - destruct s as [|x1 [|x2 [|x3 post]]]; simpl; try lia;
      repeat (case_match; try lia);
      repeat match goal with
             | H : (_ =? _)%N = true |- _ => apply N.eqb_eq in H
             end; subst.
    intros _. by exists post.
  - intros [post ->]. simpl. rewrite !N.eqb_refl. lia.
Qed.

Lemma has_run4_spec (text : pystr) : has_run4 text = true <-> repeats_on_a_line text.
Proof.
  split.
  - induction text as [|c rest IH]; cbn [has_run4]; [done|].
    intros [H|H]%orb_true_iff.
    + apply andb_true_iff in H as [Hc Hn].
      apply negb_true_iff, N.eqb_neq in Hc.
      apply Nat.leb_le, run_length_ge3 in Hn as [post ->].
      by exists c, [], post.
    + destruct (IH H) as (d & pre & post & Hd & ->).
      by exists d, (c :: pre), post.
  - intros (c & pre & post & Hc & ->).
    induction pre as [|x pre IH].
    + cbn [app has_run4]. apply orb_true_iff. left. apply andb_true_iff. split.
      * by apply negb_true_iff, N.eqb_neq.
      * apply Nat.leb_le, run_length_ge3. by exists post.
    + change ((x :: pre) ++ [c; c; c; c] ++ post)
        with (x :: (pre ++ [c; c; c; c] ++ post)).
      cbn [has_run4]. rewrite IH. apply orb_true_r.
Qed.

(** The search for [(.)\1{3,}] finds something exactly when some character
    other than a line feed stands four times in a row. *)
Lemma has_repeated_spec (text : pystr) :
  has_repeated text = true <-> repeats_on_a_line text.
Proof.
  rewrite <- has_run4_spec. unfold has_repeated.
  induction text as [|c rest IH]; cbn [has_run4 findall_repeated]; [done|].
  destruct (negb (c =? NL)%N && (3 <=? run_length c rest)); simpl; [done|].
  apply IH.
Qed.

Section Score.
Context {U : PyUnicode}.

(** [re.findall(r'\d+', text)] yields one match for every digit that starts
    a run. *)
Lemma findall_digits_length (run text : pystr) :
  length (findall_digits run text) =
    match run with
    | [] => token_starts false text
    | _ :: _ => S (token_starts true text)
    end.
Proof.
  revert run. induction text as [|c rest IH]; intros run; simpl.
  - by destruct run.
  - destruct (isdecimal c) eqn:E; simpl.
    + rewrite IH. destruct run; simpl; done.
    + destruct run; simpl; rewrite (IH []); done.
Qed.

Lemma numbers_length (text : pystr) :
  length (findall_digits [] text) = numeric_tokens text.
Proof. apply findall_digits_length. Qed.

Lemma has_currency_spec (text : pystr) :
  has_currency text = true <->
  exists symbol, In symbol currency_symbols /\ occurs symbol text.
Proof.
  unfold has_currency. rewrite existsb_exists.
  split; intros (symbol & Hin & H); exists symbol; split; try done;
    by apply contains_spec.
Qed.

Lemma found_keywords_count (text : pystr) :
  count_of (fun keyword => occurs (lower keyword) (lower text))
           financial_keywords (found_keywords text).
Proof. apply count_of_filter. intros keyword. apply contains_spec. Qed.

(** The score is 100 less the points taken, clamped. *)
Lemma validate_text_quality_penalties (text : pystr) :
  text <> [] -> 10 <= length (strip text) ->
  validate_text_quality text = clamp (100 - penalties text).
Proof.
  intros Hne Hlen. destruct text as [|c r]; [done|].
  unfold validate_text_quality, penalties, found_keywords, has_currency, has_repeated.
  destruct (length (strip (c :: r)) <? 10) eqn:E; [apply Nat.ltb_lt in E; lia|].
  cbv zeta. unfold pen, clamp.
  generalize (length (c :: r) <? 50)
    (length (List.filter (fun keyword => contains (lower keyword) (lower (c :: r)))
                         financial_keywords) <? 3)
    (length (findall_digits [] (c :: r)) <? 3)
    (negb (existsb (fun symbol => contains symbol (c :: r)) currency_symbols))
    (length (c :: r) <? 10 * length (findall_special (c :: r)))
    (findall_repeated 0 (c :: r)).
  intros [] [] [] [] [] []; reflexivity.
Qed.

Lemma validate_text_quality_terminal (text : pystr) :
  text = [] \/ length (strip text) < 10 -> validate_text_quality text = 0%Z.
Proof.
  intros [->|H]; [done|]. destruct text as [|c r]; [done|].
  unfold validate_text_quality. apply Nat.ltb_lt in H. by rewrite H.
Qed.

Lemma penalty_pen (P : Prop) (b : bool) (k : Z) :
  (b = true <-> P) -> penalty P k (pen b k).
Proof.
  intros H. destruct b; [left|right]; (split; [|done]).
  - by apply H.
  - intros HP. apply H in HP. done.
Qed.

(** C3, with the repetition rule as the code has it: the score is 0 for an
    empty text or one whose trimmed length is under 10; otherwise it is 100
    less 30 for a length under 50, 20 for fewer than three keywords found
    case-insensitively, 15 for fewer than three numeric tokens, 10 for no
    currency marker, 25 for noise above a tenth of the length, and 15 for a
    character other than a line feed standing four or more times in a row,
    clamped to the range 0..100; and it always lies in that range. *)
Theorem validate_text_quality_spec (text : pystr) :
  quality_spec repeats_on_a_line text (validate_text_quality text) /\
  (0 <= validate_text_quality text <= 100)%Z.
Proof.
  split.
  - split; [apply validate_text_quality_terminal|].
    intros Hne Hlen.
    exists (pen (length text <? 50) 30), (pen (found_keywords text <? 3) 20),
      (pen (length (findall_digits [] text) <? 3) 15),
      (pen (negb (has_currency text)) 10),
      (pen (length text <? 10 * length (findall_special text)) 25),
      (pen (has_repeated text) 15).
    split_and!.
    + apply penalty_pen, Nat.ltb_lt.
    + apply penalty_pen. rewrite Nat.ltb_lt. split.
      * intros H. exists (found_keywords text). split; [apply found_keywords_count|done].
      * intros (n & Hn & Hlt).
        by rewrite (count_of_unique _ _ _ _ (found_keywords_count text) Hn).
    + apply penalty_pen. by rewrite Nat.ltb_lt, numbers_length.
    + apply penalty_pen. rewrite negb_true_iff, <- has_currency_spec.
      by destruct (has_currency text).
    + apply penalty_pen, Nat.ltb_lt.
    + apply penalty_pen, has_repeated_spec.
    + rewrite validate_text_quality_penalties by done.
      unfold penalties. f_equal. lia.
  - destruct text as [|c r]; [done|]. unfold validate_text_quality.
    destruct (_ <? 10); [done|]. cbv zeta. lia.
Qed.

End Score.

(** The claim of C3 as it is worded, with the repetition rule read over every
    character, fails on a text whose only repetition is a run of four line
    feeds: the code scores it 100, the wording 85. *)
Lemma validate_text_quality_blank_run :
  @validate_text_quality ascii_tables blank_run_text = 100%Z /\
  ~ @quality_spec ascii_tables repeats_any blank_run_text
      (@validate_text_quality ascii_tables blank_run_text).
Proof.
  split; [by vm_compute|].
  intros [_ H].
  destruct H as (p1 & p2 & p3 & p4 & p5 & p6 & H1 & H2 & H3 & H4 & H5 & H6 & Hs).
  { done. }
  { vm_compute. lia. }
  assert (H6' : p6 = 15%Z).
  { destruct H6 as [[_ ->]|[Hn _]]; [done|]. exfalso. apply Hn.
    by exists NL, (py "invoice total amount 1 2 3 $"), (py "abcdefghijklmnopqrstuvwxyz"). }
  replace (@validate_text_quality ascii_tables blank_run_text) with 100%Z in Hs
    by by vm_compute.
  unfold clamp in Hs.
  destruct H1 as [[_ ->]|[_ ->]], H2 as [[_ ->]|[_ ->]], H3 as [[_ ->]|[_ ->]],
    H4 as [[_ ->]|[_ ->]], H5 as [[_ ->]|[_ ->]]; lia.
Qed.

(** ** Removing the noise characters *)

Lemma occurs_nil (s : pystr) : occurs [] s.
Proof. by exists [], s. Qed.

Lemma occurs_app_l (p s pre : pystr) : occurs p s -> occurs p (pre ++ s).
Proof.
  intros (a & b & ->). exists (pre ++ a), b. by rewrite <- app_assoc.
Qed.

(** A pattern made of kept characters survives the removal of the others. *)
Lemma occurs_filter (keep : N -> bool) (p s : pystr) :
  Forall (fun c => keep c = true) p -> occurs p s -> occurs p (List.filter keep s).
Proof.
  intros Hp (pre & post & ->).
  exists (List.filter keep pre), (List.filter keep post).
  rewrite !List.filter_app. do 2 f_equal.
  induction Hp as [|c p Hc _ IH]; simpl; [done|]. by rewrite Hc, IH.
Qed.

Section FlatMapFilter.
Variables (f : N -> pystr) (keep : N -> bool) (k : pystr).
Hypothesis keep_sources : forall c x, In x (f c) -> In x k -> keep c = true.

(** If [k] starts a text that ends with the images of [t], it still does
    when the characters of [t] that are not kept go. *)
Lemma flat_map_filter_prefix (t s post : pystr) :
  s ++ flat_map f t = k ++ post ->
  exists post', s ++ flat_map f (List.filter keep t) = k ++ post'.
Proof using keep_sources.
  revert s post. induction t as [|c t IH]; intros s post H; simpl in *.
  - by exists post.
  - destruct (keep c) eqn:K; simpl.
    + rewrite app_assoc in *. by apply (IH _ post).
    + apply app_eq_inv in H as [(m & -> & ->)|(m & Hk & Hm)].
      * exists (m ++ flat_map f (List.filter keep t)). by rewrite <- app_assoc.
      * destruct m as [|x m].
        { rewrite app_nil_r in Hk. subst s. by exists (flat_map f (List.filter keep t)). }
        destruct (f c) as [|y fc] eqn:E.
        { simpl in Hm. apply (IH s post). by rewrite Hm, Hk, <- app_assoc. }
        simpl in Hm. injection Hm as -> _.
        rewrite (keep_sources c x) in K; [done| |].
        -- rewrite E. by left.
        -- rewrite Hk. apply in_or_app. right. by left.
Qed.

Lemma occurs_flat_map_filter (t : pystr) :
  occurs k (flat_map f t) -> occurs k (flat_map f (List.filter keep t)).
Proof using keep_sources.
  induction t as [|c t IH]; intros (pre & post & H); simpl in *.
  - symmetry in H. apply app_eq_nil in H as [_ [-> _]%app_eq_nil]. apply occurs_nil.
  - apply app_eq_inv in H as [(m & Hfc & Hm)|(m & -> & Hm)].
    + destruct (flat_map_filter_prefix t m post (eq_sym Hm)) as [post' H'].
      destruct (keep c) eqn:K; simpl.
      * exists pre, post'. by rewrite Hfc, <- app_assoc, H'.
      * destruct m as [|x m]; [by exists [], post'|].
        destruct k as [|x' k']; [apply occurs_nil|].
        simpl in H'. injection H' as -> _.
        rewrite (keep_sources c x') in K; [done| |by left].
        rewrite Hfc. apply in_or_app. right. by left.
    + assert (Hocc : occurs k (flat_map f t)) by by exists m, post.
      apply IH in Hocc. destruct (keep c); simpl; [by apply occurs_app_l|done].
Qed.

End FlatMapFilter.

Lemma filter_length_mono {A : Type} (f g : A -> bool) (l : list A) :
  (forall x, In x l -> f x = true -> g x = true) ->
  length (List.filter f l) <= length (List.filter g l).
Proof.
  induction l as [|x l IH]; intros H; simpl; [done|].
  assert (IH' : length (List.filter f l) <= length (List.filter g l)).
  { apply IH. intros y Hy. apply H. by right. }
  destruct (f x) eqn:Ef.
  - rewrite (H x) by (done || by left). simpl. lia.
  - destruct (g x); simpl; lia.
Qed.

Lemma pen_mono (b b' : bool) (k : Z) :
  (0 <= k)%Z -> (b' = true -> b = true) -> (pen b' k <= pen b k)%Z.
Proof. intros Hk H. destruct b'; [by rewrite H|]. destruct b; simpl; lia. Qed.

Lemma ascii_lower_keywords :
  Forall (fun keyword => forallb (in_range 97 122) keyword = true) financial_keywords.
Proof. repeat constructor. Qed.

Section NoiseRemoval.
Context {U : PyUnicode}.

(** Three facts about the Unicode tables, true of CPython's: the capital
    ASCII letters are alphanumeric, a small ASCII letter is its own
    lowercase form, and a character whose lowercase form has a small ASCII
    letter is alphanumeric. *)
Hypothesis upper_alnum : forall c, in_range 65 90 c = true -> isalnum c = true.
Hypothesis lower_fixed : forall c, in_range 97 122 c = true -> lower_char c = [c].
Hypothesis lower_origin :
  forall c x, In x (lower_char c) -> in_range 97 122 x = true -> isalnum c = true.

Lemma alnum_not_special (c : N) : isalnum c = true -> is_special c = false.
Proof. intros H. unfold is_special, is_word. by rewrite H. Qed.

Lemma lower_small (s : pystr) : forallb (in_range 97 122) s = true -> lower s = s.
Proof using lower_fixed.
  induction s as [|c s IH]; simpl; [done|].
  intros [Hc Hs]%andb_true_iff. unfold lower in *. simpl.
  by rewrite lower_fixed, IH.
Qed.

Lemma keyword_survives (keyword text : pystr) :
  forallb (in_range 97 122) keyword = true ->
  contains (lower keyword) (lower text) = true ->
  contains (lower keyword) (lower (remove_noise text)) = true.
Proof using lower_fixed lower_origin.
  intros Hk. rewrite lower_small by done. rewrite !contains_spec.
  apply occurs_flat_map_filter. intros c x Hx Hin.
  rewrite alnum_not_special; [done|]. apply (lower_origin c x Hx).
  rewrite forallb_forall in Hk. by apply Hk.
Qed.

Lemma found_keywords_remove_noise (text : pystr) :
  found_keywords text <= found_keywords (remove_noise text).
Proof using lower_fixed lower_origin.
  apply filter_length_mono. intros keyword Hin.
  apply keyword_survives.
  pose proof ascii_lower_keywords as H. rewrite List.Forall_forall in H. by apply H.
Qed.

Lemma currency_symbols_kept :
  Forall (Forall (fun c => negb (is_special c) = true)) currency_symbols.
Proof using upper_alnum.
  unfold currency_symbols.
  repeat (constructor;
          try (apply negb_true_iff;
               first [ apply alnum_not_special, upper_alnum; by vm_compute
                     | unfold is_special; apply negb_false_iff;
                       rewrite !orb_true_iff; right; by vm_compute ])).
Qed.

Lemma has_currency_remove_noise (text : pystr) :
  has_currency text = true -> has_currency (remove_noise text) = true.
Proof using upper_alnum.
  rewrite !has_currency_spec. intros (symbol & Hin & Hocc).
  exists symbol. split; [done|]. apply occurs_filter; [|done].
  pose proof currency_symbols_kept as H. rewrite List.Forall_forall in H. by apply H.
Qed.

Lemma no_noise_left (text : pystr) : findall_special (remove_noise text) = [].
Proof.
  unfold findall_special, remove_noise.
  induction text as [|c r IH]; simpl; [done|].
  destruct (is_special c) eqn:E; simpl; [done|]. by rewrite E.
Qed.

(** C6, as far as it holds: removing the characters counted by the noise
    heuristic never lowers the score of a text, provided that what is left
    keeps a trimmed length of at least 10 and that the removal does not
    bring the length under 50, the numeric tokens under three, or a
    character four times in a row where the text had none. The noise
    penalty is gone after the removal, and the keyword and currency
    penalties cannot appear through it. *)
Theorem noise_removal_monotone (text : pystr) :
  10 <= length (strip (remove_noise text)) ->
  (length text < 50 \/ 50 <= length (remove_noise text)) ->
  (numeric_tokens text < 3 \/ 3 <= numeric_tokens (remove_noise text)) ->
  (repeats_on_a_line text \/ ~ repeats_on_a_line (remove_noise text)) ->
  (validate_text_quality text <= validate_text_quality (remove_noise text))%Z.
Proof using upper_alnum lower_fixed lower_origin.
  intros H10 Hlen Hnum Hrep.
  assert (Hne : remove_noise text <> []).
  { intros E. rewrite E in H10. simpl in H10. lia. }
  rewrite (validate_text_quality_penalties (remove_noise text)) by done.
  destruct (decide (text = [] \/ length (strip text) < 10)) as [Ht|Ht].
  { rewrite validate_text_quality_terminal by done. unfold clamp. lia. }
  rewrite (validate_text_quality_penalties text); cycle 1.
  { intros ->. apply Ht. by left. }
  { apply Nat.nlt_ge. intros H. apply Ht. by right. }
  assert (penalties (remove_noise text) <= penalties text)%Z; [|unfold clamp; lia].
  unfold penalties. rewrite no_noise_left.
  repeat apply Z.add_le_mono; try (apply pen_mono; [lia|]).
  - rewrite !Nat.ltb_lt. lia.
  - rewrite !Nat.ltb_lt. pose proof (found_keywords_remove_noise text). lia.
  - rewrite !Nat.ltb_lt, !numbers_length. lia.
  - rewrite !negb_true_iff. intros H. apply not_true_is_false. intros H'.
    apply has_currency_remove_noise in H'. congruence.
  - intros H. apply Nat.ltb_lt in H. simpl in H. lia.
  - rewrite !has_repeated_spec. tauto.
Qed.

End NoiseRemoval.

Lemma ascii_upper_alnum (c : N) :
  in_range 65 90 c = true -> @isalnum ascii_tables c = true.
Proof. intros H. simpl. unfold ascii_isalnum. rewrite H. by rewrite orb_true_r. Qed.

Lemma ascii_lower_fixed (c : N) :
  in_range 97 122 c = true -> @lower_char ascii_tables c = [c].
Proof.
  intros H. simpl. unfold ascii_lower_char.
  destruct (in_range 65 90 c) eqn:E; [|done].
  unfold in_range in *.
  apply andb_true_iff in H as [H1 H2]. apply andb_true_iff in E as [E1 E2].
  apply N.leb_le in H1, E2. lia.
Qed.

Lemma ascii_lower_origin (c x : N) :
  In x (@lower_char ascii_tables c) -> in_range 97 122 x = true ->
  @isalnum ascii_tables c = true.
Proof.
  simpl. unfold ascii_lower_char, ascii_isalnum.
  destruct (in_range 65 90 c) eqn:E; intros [<-|[]] H.
  - by rewrite orb_true_r.
  - by rewrite H, orb_true_r.
Qed.

(** The claim of C6 as it is worded fails: without its twenty-two noise
    characters the fifty-character text is short, and loses 30 points where
    it had lost 25. *)
Lemma noise_removal_lowers_score :
  @validate_text_quality ascii_tables noisy_text = 75%Z /\
  @validate_text_quality ascii_tables (@remove_noise ascii_tables noisy_text) = 70%Z /\
  ~ (@validate_text_quality ascii_tables noisy_text
     <= @validate_text_quality ascii_tables (@remove_noise ascii_tables noisy_text))%Z.
Proof. split_and!; [by vm_compute | by vm_compute | by vm_compute]. Qed.

(** The removal can also join numeric tokens, bring equal characters
    together, or leave fewer than ten characters, and lower the score each
    time. *)
Example removal_joins_numbers :
  @validate_text_quality ascii_tables
    (py "invoice total amount $ paid in full by bank transfer 1#2#3") = 100%Z /\
  @validate_text_quality ascii_tables
    (@remove_noise ascii_tables
       (py "invoice total amount $ paid in full by bank transfer 1#2#3")) = 85%Z.
Proof. split; reflexivity. Qed.

Example removal_makes_a_run :
  @validate_text_quality ascii_tables
    (py "invoice total amount $ 1 2 3 paid in full by bank xx#xx") = 100%Z /\
  @validate_text_quality ascii_tables
    (@remove_noise ascii_tables
       (py "invoice total amount $ 1 2 3 paid in full by bank xx#xx")) = 85%Z.
Proof. split; reflexivity. Qed.

Example removal_leaves_too_little :
  @validate_text_quality ascii_tables (py "a $ 1 2 3#@#@#@#") = 25%Z /\
  @validate_text_quality ascii_tables
    (@remove_noise ascii_tables (py "a $ 1 2 3#@#@#@#")) = 0%Z.
Proof. split; reflexivity. Qed.

Lemma noise_removal_monotone_witness :
  (@validate_text_quality ascii_tables
     (py "invoice total amount 1 2 3 $ ~#~#~#~# paid in full by bank transfer today")
   <= @validate_text_quality ascii_tables
        (@remove_noise ascii_tables
           (py "invoice total amount 1 2 3 $ ~#~#~#~# paid in full by bank transfer today")))%Z.
Proof.
  apply (@noise_removal_monotone ascii_tables
           ascii_upper_alnum ascii_lower_fixed ascii_lower_origin).
  - vm_compute. lia.
  - right. vm_compute. lia.
  - right. vm_compute. lia.
  - right. rewrite <- has_run4_spec. by vm_compute.
Defined.

(** ** The formatter of the OCR response *)

Lemma key_lt_asym (a b : Block) : key_lt a b = true -> key_lt b a = false.
Proof.
  unfold key_lt.
  rewrite <- (Qcompare_antisym (top_of a) (top_of b)).
  rewrite <- (Qcompare_antisym (left_of a) (left_of b)).
  destruct (top_of a ?= top_of b)%Q; simpl; try done.
  by destruct (left_of a ?= left_of b)%Q.
Qed.

Lemma key_le_reading_order (a b : Block) : key_le a b = true -> reading_order a b.
Proof.
  unfold key_le, key_lt, reading_order. intros H%negb_true_iff.
  rewrite <- (Qcompare_antisym (top_of a) (top_of b)) in H.
  rewrite <- (Qcompare_antisym (left_of a) (left_of b)) in H.
  destruct (top_of a ?= top_of b)%Q eqn:Et; simpl in H; try done.
  - right. split; [by apply Qeq_alt|].
    apply Qle_alt. intros E. by rewrite E in H.
  - left. by apply Qlt_alt.
Qed.

Lemma insert_line_perm (x : Block) (l : list Block) :
  Permutation (insert_line x l) (x :: l).
Proof.
  induction l as [|y l IH]; simpl; [done|].
  destruct (key_lt y x); [|done].
  rewrite IH. apply perm_swap.
Qed.

Lemma sort_lines_perm (l : list Block) : Permutation (sort_lines l) l.
Proof.
  induction l as [|x l IH]; simpl; [done|].
  rewrite insert_line_perm. by constructor.
Qed.

Lemma insert_line_sorted (x : Block) (l : list Block) :
  Sorted (fun a b => key_le a b = true) l ->
  Sorted (fun a b => key_le a b = true) (insert_line x l).
Proof.
  induction 1 as [|y l Hl IH Hy]; simpl; [by repeat constructor|].
  destruct (key_lt y x) eqn:E.
  - constructor; [done|].
    destruct l as [|z l]; simpl.
    + constructor. unfold key_le. by rewrite (key_lt_asym y x).
    + destruct (key_lt z x).
      * constructor. by inversion Hy.
      * constructor. unfold key_le. by rewrite (key_lt_asym y x).
  - constructor; [by constructor|]. constructor. unfold key_le. by rewrite E.
Qed.

Lemma sort_lines_sorted (l : list Block) :
  Sorted (fun a b => key_le a b = true) (sort_lines l).
Proof.
  induction l as [|x l IH]; simpl; [constructor|]. by apply insert_line_sorted.
Qed.

Lemma sort_lines_reading_order (l : list Block) :
  Sorted reading_order (sort_lines l).
Proof.
  pose proof (sort_lines_sorted l) as H.
  induction H as [|y s Hs IH Hy]; constructor; [done|].
  destruct Hy; constructor. by apply key_le_reading_order.
Qed.

(** The inner loop appends the texts of the lines. *)
Lemma fold_append_line (lines : list Block) (acc : pystr) :
  fold_left append_line lines acc = acc ++ flat_map line_text lines.
Proof.
  revert acc. induction lines as [|b lines IH]; intros acc; simpl.
  - by rewrite app_nil_r.
  - rewrite IH. unfold append_line, line_text.
    destruct (strip (text_of b)); [done|]. by rewrite <- app_assoc.
Qed.

Lemma page_step_eq (pages : gmap Z (list Block)) (acc : pystr) (page_num : Z) :
  page_step pages acc page_num = page_step_upto pages (max_key pages) acc page_num.
Proof. unfold page_step, page_step_upto, page_text. by rewrite fold_append_line. Qed.

(** Over ascending page numbers that end with [last_page], the loop writes
    the page texts with one marker between two of them. *)
Lemma fold_page_step (pages : gmap Z (list Block)) (last_page : Z)
    (keys : list Z) (acc : pystr) :
  StronglySorted Z.lt keys -> last keys = Some last_page ->
  fold_left (page_step_upto pages last_page) keys acc
  = acc ++ join PAGE_BREAK (map (page_text pages) keys).
Proof.
  intros Hs. revert acc. induction Hs as [|k keys Hs IH Hk]; intros acc Hlast; [done|].
  destruct keys as [|k2 keys].
  - simpl in *. injection Hlast as ->. unfold page_step_upto.
    by rewrite Z.ltb_irrefl.
  - change (last (k :: k2 :: keys)) with (last (k2 :: keys)) in Hlast.
    change (fold_left (page_step_upto pages last_page) (k :: k2 :: keys) acc)
      with (fold_left (page_step_upto pages last_page) (k2 :: keys)
                      (page_step_upto pages last_page acc k)).
    rewrite IH by done. unfold page_step_upto.
    assert (Hlt : (k <? last_page)%Z = true).
    { apply Z.ltb_lt. rewrite List.Forall_forall in Hk. apply Hk.
      apply list_elem_of_In. by eapply last_Some_elem_of. }
    rewrite Hlt. cbn [map join]. by rewrite <- !app_assoc.
Qed.

Lemma fold_max_ge (l : list Z) (a x : Z) :
  x = a \/ In x l -> (x <= fold_left Z.max l a)%Z.
Proof.
  revert a x. induction l as [|y l IH]; intros a x H; simpl.
  - destruct H as [->|[]]. lia.
  - destruct H as [->|[->|H]].
    + etransitivity; [|apply IH; left; reflexivity]. lia.
    + etransitivity; [|apply IH; left; reflexivity]. lia.
    + apply IH. by right.
Qed.

Lemma fold_max_in (l : list Z) (a : Z) :
  fold_left Z.max l a = a \/ In (fold_left Z.max l a) l.
Proof.
  revert a. induction l as [|y l IH]; intros a; simpl; [by left|].
  destruct (IH (Z.max a y)) as [H|H]; [|right; by right].
  rewrite H. destruct (Z.max_spec a y) as [[_ ->]|[_ ->]]; [right; by left|by left].
Qed.

Lemma sorted_keys_sorted (pages : gmap Z (list Block)) :
  StronglySorted Z.lt (sorted_keys pages).
Proof.
  unfold sorted_keys.
  assert (Hle : StronglySorted Z.le (merge_sort Z.le (elements (dom pages)))).
  { apply StronglySorted_merge_sort; apply _. }
  assert (Hnd : NoDup (merge_sort Z.le (elements (dom pages)))).
  { rewrite merge_sort_Permutation. apply NoDup_elements. }
  induction Hle as [|k ks Hks IH Hk]; [constructor|].
  apply NoDup_cons in Hnd as [Hnot Hnd].
  constructor; [by apply IH|].
  rewrite List.Forall_forall in *. intros x Hx.
  assert (x <> k) by (intros ->; by apply Hnot, list_elem_of_In).
  specialize (Hk x Hx). lia.
Qed.

Lemma sorted_keys_spec (pages : gmap Z (list Block)) (page_num : Z) :
  In page_num (sorted_keys pages) <-> is_Some (pages !! page_num).
Proof.
  unfold sorted_keys.
  rewrite <- list_elem_of_In, merge_sort_Permutation, elem_of_elements.
  apply elem_of_dom.
Qed.

Lemma sorted_last_max (keys : list Z) (last_key : Z) :
  StronglySorted Z.lt keys -> last keys = Some last_key ->
  forall x, In x keys -> (x <= last_key)%Z.
Proof.
  induction 1 as [|k ks Hks IH Hk]; intros Hlast x Hx; [done|].
  destruct ks as [|k2 ks].
  - simpl in Hlast. injection Hlast as <-. destruct Hx as [->|[]]. lia.
  - change (last (k :: k2 :: ks)) with (last (k2 :: ks)) in Hlast.
    destruct Hx as [<-|Hx]; [|by apply IH].
    rewrite List.Forall_forall in Hk.
    assert (k < k2)%Z by (apply Hk; by left).
    assert (k2 <= last_key)%Z by (apply IH; [done|by left]). lia.
Qed.

Lemma max_key_last (pages : gmap Z (list Block)) (last_page : Z) :
  last (sorted_keys pages) = Some last_page -> max_key pages = last_page.
Proof.
  intros Hlast.
  assert (Hin : forall x, In x (elements (dom pages)) <-> In x (sorted_keys pages)).
  { intros x. unfold sorted_keys.
    by rewrite <- !list_elem_of_In, merge_sort_Permutation. }
  assert (Hmax : forall x, In x (sorted_keys pages) -> (x <= last_page)%Z).
  { by apply sorted_last_max; [apply sorted_keys_sorted|]. }
  assert (Hlast_in : In last_page (sorted_keys pages)).
  { apply list_elem_of_In. by eapply last_Some_elem_of. }
  unfold max_key. destruct (elements (dom pages)) as [|k ks] eqn:E.
  { apply Hin in Hlast_in. destruct Hlast_in. }
  apply Z.le_antisymm.
  - apply Hmax, Hin. destruct (fold_max_in ks k) as [->|H]; [by left|by right].
  - apply fold_max_ge. apply Hin in Hlast_in. destruct Hlast_in; [left|right]; done.
Qed.

(** The page loop, as a join. *)
Lemma pages_loop_join (pages : gmap Z (list Block)) :
  fold_left (page_step pages) (sorted_keys pages) []
  = join PAGE_BREAK (map (page_text pages) (sorted_keys pages)).
Proof.
  destruct (last (sorted_keys pages)) as [last_page|] eqn:Hlast.
  - transitivity (fold_left (page_step_upto pages last_page) (sorted_keys pages) []).
    + assert (Hstep : forall acc p,
                page_step pages acc p = page_step_upto pages last_page acc p).
      { intros acc p. by rewrite page_step_eq, (max_key_last pages last_page). }
      clear Hlast. generalize (@nil N).
      induction (sorted_keys pages) as [|k ks IH]; intros acc; [done|].
      simpl. by rewrite IH, Hstep.
    + by apply (fold_page_step pages last_page _ []); [apply sorted_keys_sorted|].
  - apply last_None in Hlast. by rewrite Hlast.
Qed.

Lemma group_step_grouped (pages : gmap Z (list Block)) (seen : list Block) (b : Block) :
  grouped pages seen -> grouped (group_step pages b) (seen ++ [b]).
Proof.
  intros H p lines. unfold group_step.
  destruct (BlockType b) eqn:Eb.
  - rewrite lookup_insert. case_decide as Hp.
    + intros [= <-]. split; [constructor|apply sublist_nil_l].
    + intros Hl. destruct (H p lines Hl) as [Hf Hs].
      split; [done|]. by apply sublist_inserts_r.
  - rewrite lookup_alter. case_decide as Hp.
    + subst p. destruct (pages !! page_of b) as [old|] eqn:Eo.
      * rewrite Eo. intros [= <-]. destruct (H _ _ Eo) as [Hf Hs]. split.
        -- apply Forall_app. split; [done|]. by repeat constructor.
        -- by apply sublist_app.
      * rewrite lookup_insert_eq. intros [= <-]. split.
        -- by repeat constructor.
        -- apply sublist_inserts_l. done.
    + intros Hl. assert (Hl' : pages !! p = Some lines).
      { destruct (pages !! page_of b); [done|]. by rewrite lookup_insert_ne in Hl. }
      destruct (H p lines Hl') as [Hf Hs].
      split; [done|]. by apply sublist_inserts_r.
  - intros Hl. destruct (H p lines Hl) as [Hf Hs].
    split; [done|]. by apply sublist_inserts_r.
Qed.

Lemma group_blocks_grouped (blocks : list Block) : grouped (group_blocks blocks) blocks.
Proof.
  unfold group_blocks.
  assert (H : forall bs pages seen, grouped pages seen ->
                grouped (fold_left group_step bs pages) (seen ++ bs)).
  { induction bs as [|b bs IH]; intros pages seen Hg; simpl.
    - by rewrite app_nil_r.
    - replace (seen ++ b :: bs) with ((seen ++ [b]) ++ bs) by by rewrite <- app_assoc.
      apply IH. by apply group_step_grouped. }
  apply (H blocks ∅ []). intros p lines Hl. by rewrite lookup_empty in Hl.
Qed.

Lemma group_fold_lookup (page_num : Z) (blocks : list Block) (pages : gmap Z (list Block)) :
  Forall (fun b => is_page_of page_num b = false) blocks ->
  fold_left group_step blocks pages !! page_num
  = match pages !! page_num with
    | Some lines => Some (lines ++ List.filter (is_line_of page_num) blocks)
    | None =>
        match List.filter (is_line_of page_num) blocks with
        | [] => None
        | lines => Some lines
        end
    end.
Proof.
  intros H. revert pages. induction H as [|b bs Hb _ IH]; intros pages.
  - simpl. destruct (pages !! page_num); [by rewrite app_nil_r|done].
  - cbn [fold_left List.filter]. rewrite IH. clear IH.
    unfold group_step, is_page_of, is_line_of in *.
    destruct (BlockType b).
    + apply bool_decide_eq_false in Hb. by rewrite lookup_insert_ne.
    + case_bool_decide as Hp.
      * rewrite lookup_alter, decide_True by done. subst page_num.
        destruct (pages !! page_of b) as [lines|] eqn:E.
        -- rewrite E. simpl. by rewrite <- app_assoc.
        -- by rewrite lookup_insert_eq.
      * rewrite lookup_alter_ne by done.
        destruct (pages !! page_of b); [done|]. by rewrite lookup_insert_ne.
    + done.
Qed.

Lemma after_last_page_none (page_num : Z) (blocks : list Block) :
  existsb (is_page_block page_num) blocks = false ->
  after_last_page page_num blocks = blocks.
Proof.
  destruct blocks as [|b rest]; [done|]. simpl.
  intros [Hb Hrest]%orb_false_iff. by rewrite Hrest, Hb.
Qed.

Lemma after_last_page_some (page_num : Z) (pre post : list Block) (pg : Block) :
  is_page_block page_num pg = true ->
  existsb (is_page_block page_num) post = false ->
  after_last_page page_num (pre ++ pg :: post) = post.
Proof.
  intros Hpg Hpost. induction pre as [|b pre IH]; simpl.
  - by rewrite Hpost, Hpg.
  - rewrite existsb_app. simpl. rewrite Hpg, orb_true_r. apply IH.
Qed.

(** The last PAGE block of a page that has one. *)
Lemma last_page_block (page_num : Z) (blocks : list Block) :
  existsb (is_page_block page_num) blocks = true ->
  exists pre pg post, blocks = pre ++ pg :: post /\
    is_page_block page_num pg = true /\
    existsb (is_page_block page_num) post = false.
Proof.
  induction blocks as [|b rest IH]; [done|]. simpl.
  destruct (existsb (is_page_block page_num) rest) eqn:E.
  - intros _. destruct (IH eq_refl) as (pre & pg & post & -> & Hpg & Hpost).
    by exists (b :: pre), pg, post.
  - rewrite orb_false_r. intros Hb. by exists [], b, rest.
Qed.

(** Which lines the grouping holds for a page. *)
Lemma group_blocks_page (page_num : Z) (blocks : list Block) :
  group_blocks blocks !! page_num
  = if page_seen page_num blocks then Some (page_lines page_num blocks) else None.
Proof.
  assert (Hfree : forall bs, existsb (is_page_block page_num) bs = false ->
                    Forall (fun b => is_page_of page_num b = false) bs).
  { intros bs H. apply List.Forall_forall. intros b Hb.
    apply not_true_is_false. intros Hp.
    assert (existsb (is_page_block page_num) bs = true); [|congruence].
    apply existsb_exists. by exists b. }
  assert (Hseen : forall bs, existsb (is_page_block page_num) bs = false ->
            page_seen page_num bs
            = match List.filter (is_line_block page_num) bs with
              | [] => false | _ :: _ => true end).
  { induction bs as [|b bs IH]; [done|]. simpl.
    intros [Hb Hbs]%orb_false_iff. unfold page_seen in *. simpl.
    rewrite Hb, IH by done. simpl. by destruct (is_line_block page_num b). }
  unfold group_blocks, page_lines.
  destruct (existsb (is_page_block page_num) blocks) eqn:E.
  - destruct (last_page_block _ _ E) as (pre & pg & post & -> & Hpg & Hpost).
    rewrite after_last_page_some by done.
    replace (page_seen page_num (pre ++ pg :: post)) with true.
    2:{ symmetry. unfold page_seen. rewrite existsb_app. simpl.
        by rewrite Hpg, orb_true_r. }
    rewrite fold_left_app. cbn [fold_left].
    rewrite group_fold_lookup by by apply Hfree.
    unfold group_step at 1. unfold is_page_block in Hpg.
    destruct (BlockType pg); try done. apply bool_decide_eq_true in Hpg.
    change (block_page pg) with (page_of pg) in Hpg.
    by rewrite Hpg, lookup_insert_eq.
  - rewrite after_last_page_none by done.
    rewrite group_fold_lookup by by apply Hfree.
    rewrite lookup_empty, Hseen by done.
    change (is_line_of page_num) with (is_line_block page_num).
    by destruct (List.filter (is_line_block page_num) blocks).
Qed.

Lemma line_text_layout (line : Block) : line_text line = layout_line line.
Proof. unfold line_text, layout_line, text_of. by destruct (Text line). Qed.

(** The text of a page that exists, from the blocks of the response. *)
Lemma page_text_layout (page_num : Z) (blocks : list Block) :
  page_seen page_num blocks = true ->
  page_text (group_blocks blocks) page_num
  = flat_map layout_line (sort_lines (page_lines page_num blocks)).
Proof.
  intros H. unfold page_text. rewrite group_blocks_page, H. simpl.
  induction (sort_lines _) as [|b l IH]; [done|]. simpl.
  by rewrite IH, line_text_layout.
Qed.

(** C4: the formatter groups the text lines by page: the lines of a page
    are the LINE blocks that name it, or name no page when it is page 1,
    from the last PAGE block of the page on, and a page exists once a PAGE
    or LINE block names it; it takes the pages by ascending number and the
    lines of a page in reading order, by top and then by left, each line
    with its trimmed text followed by a line feed; its text is the page
    texts with one [--- PAGE BREAK ---] marker between two consecutive pages
    and none after the last, without white space at its two ends; and for
    the two lines of the example it puts A before B. *)
Theorem extract_text_with_formatting_layout (response : Response) :
  let blocks := default [] (Blocks response) in
  let pages := group_blocks blocks in
  grouped pages blocks /\
  (StronglySorted Z.lt (sorted_keys pages) /\
   forall page_num, In page_num (sorted_keys pages) <-> is_Some (pages !! page_num)) /\
  (forall lines, Permutation (sort_lines lines) lines /\
                 Sorted reading_order (sort_lines lines)) /\
  extract_text_with_formatting response
    = strip (join PAGE_BREAK (map (page_text pages) (sorted_keys pages))) /\
  extract_text_with_formatting example_lines = py "A" ++ [NL] ++ py "B" /\
  (forall page_num,
     pages !! page_num
     = if page_seen page_num blocks then Some (page_lines page_num blocks) else None) /\
  (forall page_num,
     In page_num (sorted_keys pages) <-> page_seen page_num blocks = true) /\
  (forall lines, Sorted layout_order (sort_lines lines)) /\
  (forall text, trims_to text (strip text)) /\
  trims_to
    (join (NL :: py "--- PAGE BREAK ---" ++ [NL])
       (map (fun page_num =>
               flat_map layout_line (sort_lines (page_lines page_num blocks)))
            (sorted_keys pages)))
    (extract_text_with_formatting response).
Proof.
  intros blocks pages. split_and!.
  - apply group_blocks_grouped.
  - apply sorted_keys_sorted.
  - apply sorted_keys_spec.
  - intros lines. split; [apply sort_lines_perm|apply sort_lines_reading_order].
  - unfold extract_text_with_formatting. by rewrite pages_loop_join.
  - by vm_compute.
  - intros page_num. apply group_blocks_page.
  - intros page_num. rewrite sorted_keys_spec. unfold pages.
    rewrite group_blocks_page. destruct (page_seen page_num blocks); [by split|].
    split; [by intros []|done].
  - intros lines. exact (sort_lines_reading_order lines).
  - apply strip_trims.
  - change (NL :: py "--- PAGE BREAK ---" ++ [NL]) with PAGE_BREAK.
    assert (Heq : map (fun page_num =>
                    flat_map layout_line (sort_lines (page_lines page_num blocks)))
                    (sorted_keys pages)
                  = map (page_text pages) (sorted_keys pages)).
    { apply map_ext_in. intros p Hp. symmetry. apply page_text_layout.
      apply sorted_keys_spec in Hp. unfold pages in Hp.
      rewrite group_blocks_page in Hp. destruct (page_seen p blocks); [done|].
      by destruct Hp. }
    rewrite Heq. unfold extract_text_with_formatting. rewrite pages_loop_join.
    apply strip_trims.
Qed.

(** ** The local extractor *)

Lemma non_blank_non_empty (text : pystr) : non_blank text = true -> non_empty text = true.
Proof. unfold non_blank. by destruct text. Qed.

(** The page loop on pages that all yield text. *)
Lemma pdf_pages_loop_ok (pages : list pystr) (page_num : nat) (text : pystr) :
  pdf_pages_loop page_num (map Ok pages) text
  = Ok (text ++ flat_map (page_entry non_blank)
                         (combine (seq (page_num + 1) (length pages)) pages)).
Proof.
  revert page_num text. induction pages as [|p pages IH]; intros n text.
  - simpl. by rewrite app_nil_r.
  - cbn [map pdf_pages_loop]. rewrite IH. f_equal.
    replace (S n + 1) with (S (n + 1)) by lia.
    cbn [length seq combine flat_map]. unfold page_entry at 2, non_blank, page_marker.
    cbn [fst snd]. destruct (strip p); cbn [non_empty]; [done|].
    by rewrite <- !app_assoc.
Qed.

(** The page loop stops at a page that cannot be read. *)
Lemma pdf_pages_loop_fail (pages : list (result pystr)) (e : exn) (page_num : nat)
    (text : pystr) :
  In (Raise e) pages -> exists e', pdf_pages_loop page_num pages text = Raise e'.
Proof.
  revert page_num text. induction pages as [|p pages IH]; intros n text H; [done|].
  simpl. destruct p as [t|e0]; [|by exists e0].
  destruct H as [H|H]; [done|]. by apply IH.
Qed.

(** A run is settled by computing the final state; an event list is
    checked event by event. *)
Ltac run_done := simpl; rewrite <- ?app_assoc; reflexivity.
Ltac only_this_text := repeat constructor; by intros ? [= <-].

Section Pipeline.
Context {U : PyUnicode} {S : Services}.

Lemma extract_text_from_pdf_run (file : UploadedFile) (w : world) :
  extract_text_from_pdf file w =
    (match PdfReader (content file) with
     | Raise e => Raise (PdfExtractionFailed e)
     | Ok pages =>
         match pdf_pages_loop 0 pages [] with
         | Raise e => Raise (PdfExtractionFailed e)
         | Ok text => Ok (clean_financial_text (strip text))
         end
     end,
     {| cursor := cursor w; trace := trace w ++ [CallPdfReader (name file)] |}).
Proof.
  unfold extract_text_from_pdf, try_except, mbind, M_bind, emit, lift, raise.
  simpl. destruct (PdfReader (content file)) as [pages|e]; [|done].
  by destruct (pdf_pages_loop 0 pages []).
Qed.

(** The outcome of the local extractor does not depend on the cursor or on
    the log. *)
Lemma extract_text_from_file_result (file : UploadedFile) (w1 w2 : world) :
  fst (extract_text_from_file file w1) = fst (extract_text_from_file file w2).
Proof.
  unfold extract_text_from_file.
  destruct (ends_with _ _); [|done]. by rewrite !extract_text_from_pdf_run.
Qed.

Lemma extract_text_from_file_trace (file : UploadedFile) (w : world) :
  exists new, trace (snd (extract_text_from_file file w)) = trace w ++ new /\
              forallb (fun ev => negb (is_textract_call ev)) new = true.
Proof.
  unfold extract_text_from_file. destruct (ends_with _ _).
  - rewrite extract_text_from_pdf_run. by exists [CallPdfReader (name file)].
  - exists []. by rewrite app_nil_r.
Qed.

Lemma extract_text_from_file_error (file : UploadedFile) (w : world) (e : exn) :
  fst (extract_text_from_file file w) <> Raise (TextractExtractionFailed e).
Proof.
  unfold extract_text_from_file. destruct (ends_with _ _); [|done].
  rewrite extract_text_from_pdf_run. simpl.
  destruct (PdfReader (content file)) as [pages|e0]; [|done].
  by destruct (pdf_pages_loop 0 pages []).
Qed.

(** The remote extractor raises nothing but its own error. *)
Lemma textract_sync_error (file : UploadedFile) (w w' : world) (e : exn) :
  extract_text_with_aws_textract_sync file w = (Raise e, w') ->
  exists cause, e = TextractExtractionFailed cause.
Proof.
  unfold extract_text_with_aws_textract_sync, try_except, mbind, M_bind, file_read,
    file_seek0, emit, lift, raise, mret, M_ret. simpl.
  destruct (detect_document_text _) as [response|cause]; [done|].
  intros [= <- _]. by exists cause.
Qed.

(** C1: when the remote extraction is preferred and raises, whatever the
    error, the gateway returns what the local extractor returns on the same
    file, so no error of the remote extractor ever reaches the caller; and
    when it is not preferred, the gateway is the local extractor and no call
    to the remote service is made. *)
Theorem extract_text_hybrid_fallback (file : UploadedFile) (w : world) :
  (forall e w', extract_text_with_aws_textract_sync file w = (Raise e, w') ->
     fst (extract_text_hybrid file true w) = fst (extract_text_from_file file w)) /\
  (forall use_aws e,
     fst (extract_text_hybrid file use_aws w) <> Raise (TextractExtractionFailed e)) /\
  extract_text_hybrid file false w = extract_text_from_file file w /\
  (exists new, trace (snd (extract_text_hybrid file false w)) = trace w ++ new /\
               forallb (fun ev => negb (is_textract_call ev)) new = true).
Proof.
  split_and!.
  - intros e w' H. unfold extract_text_hybrid, try_except. rewrite H.
    unfold mbind, M_bind, emit. simpl. apply extract_text_from_file_result.
  - intros [|] e; [|apply extract_text_from_file_error].
    unfold extract_text_hybrid, try_except.
    destruct (extract_text_with_aws_textract_sync file w) as [[t|e0] w']; [done|].
    unfold mbind, M_bind, emit. simpl. apply extract_text_from_file_error.
  - done.
  - apply extract_text_from_file_trace.
Qed.

(** C7, with the page test of the code: a file whose lowered name does not
    end in [.pdf] is refused as unsupported and never parsed; otherwise a
    parser that cannot read the file or one of its pages makes the
    extraction fail, and when every page yields text the result is the
    normalised, trimmed concatenation, in page order, of a
    [--- PAGE n ---] marker and the page text for every page whose text is
    not empty once trimmed; such a page has a non-empty text. *)
Theorem extract_text_from_file_spec (file : UploadedFile) (w : world) :
  let file_name := lower (name file) in
  (ends_with (py ".pdf") file_name = false ->
     extract_text_from_file file w = (Raise (UnsupportedFileType file_name), w)) /\
  (ends_with (py ".pdf") file_name = true ->
     (forall e, PdfReader (content file) = Raise e ->
        fst (extract_text_from_file file w) = Raise (PdfExtractionFailed e)) /\
     (forall pages e, PdfReader (content file) = Ok pages -> In (Raise e) pages ->
        exists e', fst (extract_text_from_file file w) = Raise (PdfExtractionFailed e')) /\
     (forall pages, PdfReader (content file) = Ok (map Ok pages) ->
        fst (extract_text_from_file file w) = Ok (local_text non_blank pages))) /\
  (forall text, non_blank text = true -> non_empty text = true).
Proof.
  intros file_name. subst file_name. unfold extract_text_from_file. split_and!.
  - by intros ->.
  - intros ->. rewrite extract_text_from_pdf_run. simpl. split_and!.
    + by intros e ->.
    + intros pages e -> Hin.
      destruct (pdf_pages_loop_fail pages e 0 [] Hin) as [e' ->]. by exists e'.
    + intros pages ->. by rewrite pdf_pages_loop_ok.
  - apply non_blank_non_empty.
Qed.

(** ** The Excel branch *)

Lemma process_excel_file_run (file : UploadedFile) (w : world) :
  process_excel_file file w =
    (match read_excel (engine_for (name file)) (content file) with
     | Ok df => Ok (fillna_empty (dropna_all df))
     | Raise e => Raise (ExcelProcessingFailed e)
     end,
     {| cursor := cursor w; trace := trace w ++ [CallReadExcel (name file)] |}).
Proof.
  unfold process_excel_file, engine_for, try_except, mbind, M_bind, emit, lift, raise.
  simpl. destruct (ends_with _ _); by destruct (read_excel _ _).
Qed.

(** The cleaning of a table, cell by cell and row by row. *)
Lemma fill_cell_filled (c : cell) : filled c (fill_cell c).
Proof. destruct c; [by left|by right..]. Qed.

Lemma row_has_value (row : Z * list cell) :
  negb (forallb is_na (snd row)) = true <-> has_value row.
Proof.
  destruct row as [i cells]. unfold has_value. simpl.
  induction cells as [|c cells IH]; simpl.
  - split; [done|]. by intros (c & [] & _).
  - rewrite negb_andb, orb_true_iff, IH. split.
    + intros [Hc|(c' & Hin & Hc')].
      * exists c. split; [by left|]. by intros ->.
      * exists c'. split; [by right|done].
    + intros (c' & [<-|Hin] & Hc'); [left; by destruct c|right; by exists c'].
Qed.

Lemma process_excel_cleaned (df : DataFrame) : cleaned df (fillna_empty (dropna_all df)).
Proof.
  split; [done|].
  exists (List.filter (fun row => negb (forallb is_na (snd row))) (rows df)). split.
  - induction (rows df) as [|row rs IH]; [constructor|]. cbn [List.filter].
    destruct (negb (forallb is_na (snd row))) eqn:E.
    + apply kept_keep; [by apply row_has_value|done].
    + apply kept_drop; [|done]. rewrite <- row_has_value. by rewrite E.
  - unfold fillna_empty, dropna_all. simpl.
    induction (List.filter _ (rows df)) as [|row rs IH]; simpl; constructor; [|done].
    split; [done|]. simpl. induction (snd row) as [|c cells IHc]; simpl; constructor;
      [apply fill_cell_filled|done].
Qed.

(** [analyze_one] never raises and only sends the text in hand to a
    language model. *)
Lemma analyze_one_run (all_results : list AnalysisResult) (r : ExtractedText) (w : world) :
  exists all_results' new,
    analyze_one all_results r w
      = (Ok all_results', {| cursor := cursor w; trace := trace w ++ new |}) /\
    Forall (fun ev => forall input, llm_input ev = Some input -> input = text r) new.
Proof.
  unfold analyze_one, try_except, classify_document, mbind, M_bind, emit, lift,
    mret, M_ret. simpl.
  destruct (classify_document_llm (text r)) as [doc_type|e].
  2:{ eexists _, [_; _]. split; [run_done|].
      only_this_text. }
  unfold dispatch, process_invoice, process_bank_statement, process_general_document.
  repeat case_bool_decide; unfold mbind, M_bind, emit, lift, mret, M_ret; simpl.
  - destruct (process_invoice_llm (text r)).
    + eexists _, [_; _]. split; [run_done|].
      only_this_text.
    + eexists _, [_; _; _]. split; [run_done|].
      only_this_text.
  - destruct (process_bank_statement_llm (text r)).
    + eexists _, [_; _]. split; [run_done|].
      only_this_text.
    + eexists _, [_; _; _]. split; [run_done|].
      only_this_text.
  - destruct (process_general_document_llm (text r)).
    + eexists _, [_; _]. split; [run_done|].
      only_this_text.
    + eexists _, [_; _; _]. split; [run_done|].
      only_this_text.
  - eexists _, [_; _]. split; [run_done|].
    only_this_text.
Qed.

Lemma analyze_loop_run (texts : list ExtractedText) (all_results : list AnalysisResult)
    (w : world) :
  exists all_results' new,
    for_each analyze_one all_results texts w
      = (Ok all_results', {| cursor := cursor w; trace := trace w ++ new |}) /\
    Forall (fun ev => forall input, llm_input ev = Some input ->
                        exists r, In r texts /\ input = text r) new.
Proof.
  revert all_results w. induction texts as [|r texts IH]; intros all_results w.
  - exists all_results, []. split; [|done]. rewrite app_nil_r. by destruct w.
  - destruct (analyze_one_run all_results r w) as (res1 & new1 & H1 & Hn1).
    destruct (IH res1 {| cursor := cursor w; trace := trace w ++ new1 |})
      as (res2 & new2 & H2 & Hn2).
    exists res2, (new1 ++ new2). split.
    + cbn [for_each]. unfold mbind, M_bind at 1. rewrite H1.
      fold (@for_each ExtractedText (list AnalysisResult)).
      rewrite H2. simpl. by rewrite <- app_assoc.
    + apply Forall_app. split.
      * eapply List.Forall_impl; [|exact Hn1]. intros ev H input Hi.
        exists r. split; [by left|by apply H].
      * eapply List.Forall_impl; [|exact Hn2]. intros ev H input Hi.
        destruct (H input Hi) as (r' & Hr & ->). exists r'. split; [by right|done].
Qed.

Lemma excel_loop_run (files : list ProcessedFile) (all_results : list AnalysisResult)
    (w : world) :
  for_each pass_excel all_results files w = (Ok (all_results ++ map excel_entry files), w).
Proof.
  revert all_results. induction files as [|f files IH]; intros all_results.
  - simpl. by rewrite app_nil_r.
  - cbn [for_each]. unfold mbind, M_bind at 1, pass_excel at 1, mret, M_ret.
    fold (@for_each ProcessedFile (list AnalysisResult)).
    rewrite IH. simpl. by rewrite <- app_assoc.
Qed.

(** X17: a file whose name ends in [.xlsx] or [.xls], as written, is handed
    to the spreadsheet reader and to nothing else, and adds nothing to the
    texts that await classification; what Step 1 stores for it is the table
    read, cleaned: with the same columns, without the rows that are empty
    throughout, the other rows under their index labels and in their order,
    and with the empty string in every missing cell, the other cells as
    they are; and Step 2 hands every stored table on as it is, sending to
    the classifier and to the extractors only texts that Step 1 extracted
    from the other files. *)
Theorem excel_name_takes_table_path (aws_available : bool) (session : Session)
    (file : UploadedFile) (w : world) :
  is_excel_name (name file) = true ->
  trace (snd (extract_one aws_available session file w))
    = trace w ++ [CallReadExcel (name file)] /\
  (forall session', fst (extract_one aws_available session file w) = Ok session' ->
     extracted_texts session' = extracted_texts session) /\
  (forall df, read_excel (engine_for (name file)) (content file) = Ok df ->
     exists table,
       fst (extract_one aws_available session file w)
         = Ok {| extracted_texts := extracted_texts session;
                 processed_files := processed_files session ++
                   [{| pf_name := name file; pf_result := table |}] |} /\
       cleaned df table) /\
  (forall state w', exists analysed new,
     step2 state w'
       = (Ok (analysed ++ map excel_entry (processed_files state)),
          {| cursor := cursor w'; trace := trace w' ++ new |}) /\
     Forall (fun ev => forall input, llm_input ev = Some input ->
                         exists r, In r (extracted_texts state) /\ input = text r) new).
Proof.
  intros Hname.
  assert (Hrun : extract_one aws_available session file w
    = (match read_excel (engine_for (name file)) (content file) with
       | Ok df =>
           Ok {| extracted_texts := extracted_texts session;
                 processed_files := processed_files session ++
                   [{| pf_name := name file;
                       pf_result := fillna_empty (dropna_all df) |}] |}
       | Raise e => Raise (ExcelProcessingFailed e)
       end,
       {| cursor := position file; trace := trace w ++ [CallReadExcel (name file)] |})).
  { unfold extract_one. rewrite Hname. unfold mbind, M_bind.
    rewrite process_excel_file_run. by destruct (read_excel _ _). }
  rewrite Hrun. split_and!.
  - done.
  - simpl. destruct (read_excel _ _); [|done]. by intros session' [= <-].
  - intros df Hread. rewrite Hread. eexists. split; [done|].
    apply process_excel_cleaned.
  - intros state w'. unfold step2.
    destruct (analyze_loop_run (extracted_texts state) [] w') as (res & new & H & Hn).
    exists res, new. split; [|done].
    unfold mbind, M_bind. rewrite H. apply excel_loop_run.
Qed.

(** ** The dispatch *)

Lemma run_extractor_trace (e : extractor) (text : pystr) (w : world) :
  trace (snd (run_extractor e text w)) = trace w ++ [extractor_call e text].
Proof.
  destruct e; unfold run_extractor, process_invoice, process_bank_statement,
    process_general_document, mbind, M_bind, emit, lift, mret, M_ret; simpl.
  - by destruct (process_invoice_llm text).
  - by destruct (process_bank_statement_llm text).
  - by destruct (process_general_document_llm text).
Qed.

(** C2: for each of the six categories the branching on the label picks the
    extractor of the dispatch table: the invoice extractor for [invoice],
    the bank-statement extractor for [bank_statement], the general-document
    extractor for the other four; running it makes one call, to that
    extractor, and the branch that warns of an unsupported type is never
    taken. *)
Theorem dispatch_complete (c : DocumentCategory) (text : pystr) :
  dispatch (category_label c) text = Some (run_extractor (extractor_for c) text) /\
  dispatch (category_label c) text <> None /\
  forall w, trace (snd (run_extractor (extractor_for c) text w))
            = trace w ++ [extractor_call (extractor_for c) text].
Proof.
  split_and!.
  - by destruct c.
  - by destruct c.
  - intros w. apply run_extractor_trace.
Qed.

End Pipeline.

(** C8, on an Excel upload whose extension is written in capitals: the
    claim fails there. The test of Step 1 on the file name is
    case-sensitive, while the local extractor lower-cases the name before
    its own test: for [LEDGER.XLSX] the spreadsheet reader is never called
    and no table is stored, whatever the services answer. Without AWS, or when the remote
    extraction raises, the local extractor refuses the file and Step 1
    stores nothing; when the remote extraction answers, what it read is
    stored as an extracted text and Step 2 sends it to the classifier and
    to the invoice extractor. The same upload under the name [ledger.xlsx]
    is stored as a table. *)
Theorem excel_upper_case_reaches_classifier :
  let file := capital_xlsx in
  let nothing := {| extracted_texts := []; processed_files := [] |} in
  let read := py "rent 1200" in
  let stored := {| extracted_texts :=
                     [{| file_name := py "LEDGER.XLSX"; text := read; quality_score := 0 |}];
                   processed_files := [] |} in
  (ends_with (py ".xlsx") (@lower ascii_tables (name file)) = true /\
   is_excel_name (name file) = false) /\
  (forall (S : Services) (aws : bool) (session : Session) (w : world),
     let run := @extract_one ascii_tables S aws session file w in
     (forall session', fst run = Ok session' ->
        processed_files session' = processed_files session) /\
     (In (CallReadExcel (name file)) (trace (snd run)) ->
      In (CallReadExcel (name file)) (trace w))) /\
  @step1 ascii_tables answering_services false [file] nothing start
  = (Ok nothing,
     {| cursor := 0; trace := [UiError (UnsupportedFileType (py "ledger.xlsx"))] |}) /\
  @step1 ascii_tables demo_services true [file] nothing start
  = (Ok nothing,
     {| cursor := 0;
        trace := [CallTextract (py "LEDGER.XLSX"); FallbackWarning (py "LEDGER.XLSX");
                  UiError (UnsupportedFileType (py "ledger.xlsx"))] |}) /\
  @step1 ascii_tables answering_services true [file] nothing start
  = (Ok stored, {| cursor := 0; trace := [CallTextract (py "LEDGER.XLSX")] |}) /\
  @step2 answering_services stored start
  = (Ok [{| ar_file_name := py "LEDGER.XLSX"; ar_type := py "invoice";
            ar_result := @InvoiceResult answering_services read |}],
     {| cursor := 0; trace := [CallClassifier read; CallInvoice read] |}) /\
  @step1 ascii_tables answering_services true [demo_xlsx] nothing start
  = (Ok {| extracted_texts := [];
           processed_files :=
             [{| pf_name := py "ledger.xlsx";
                 pf_result :=
                   {| columns := [py "item"; py "amount"];
                      rows := [ (0%Z, [CellText (py "rent"); CellNumber 1200%Q]);
                                (2%Z, [CellText (py "tax"); CellText []]) ] |} |}] |},
     {| cursor := 0; trace := [CallReadExcel (py "ledger.xlsx")] |}).
Proof.
  intros file nothing read stored.
  split; [by vm_compute|]. split; [|split_and!; by vm_compute].
  intros S aws session w run.
  assert (Hlocal : forall w0, @extract_text_from_file ascii_tables S file w0
                   = (Raise (UnsupportedFileType (py "ledger.xlsx")), w0))
    by reflexivity.
  subst run. unfold extract_one.
  change (is_excel_name (name file)) with false. cbv iota.
  unfold mbind, M_bind, extract_text_hybrid. destruct aws.
  - unfold try_except, extract_text_with_aws_textract_sync, try_except, mbind, M_bind,
      file_read, file_seek0, emit, lift, raise, mret, M_ret. simpl.
    destruct (detect_document_text _) as [response|cause]; simpl.
    + split; [by intros session' [= <-]|].
      rewrite in_app_iff. intros [H|[H|[]]]; [done|discriminate].
    + split; [done|].
      rewrite !in_app_iff. intros [[H|[H|[]]]|[H|[]]]; [done|discriminate..].
  - rewrite Hlocal. simpl. by split.
Qed.

(** The claim of C7 as it is worded, with a marker for every page whose
    text is not empty, fails on a file whose second page holds one space:
    the code gives no marker to that page. *)
Lemma blank_page_gets_no_marker :
  @PdfReader demo_services (content demo_pdf) = Ok (map Ok [py "a"; py " "]) /\
  non_empty (py " ") = true /\
  fst (@extract_text_from_file ascii_tables demo_services demo_pdf start)
    = Ok (py "--- PAGE 1 ---" ++ [NL] ++ py "a") /\
  local_text non_empty [py "a"; py " "]
    = py "--- PAGE 1 ---" ++ [NL] ++ py "a" ++ [NL; NL] ++ py "--- PAGE 2 ---" /\
  fst (@extract_text_from_file ascii_tables demo_services demo_pdf start)
    <> Ok (local_text non_empty [py "a"; py " "]).
Proof. split_and!; by vm_compute. Qed.

Lemma extract_text_hybrid_fallback_witness :
  fst (@extract_text_hybrid ascii_tables demo_services demo_pdf true start)
  = fst (@extract_text_from_file ascii_tables demo_services demo_pdf start).
Proof.
  eapply (proj1 (@extract_text_hybrid_fallback ascii_tables demo_services demo_pdf start)).
  vm_compute. reflexivity.
Defined.

Lemma extract_text_from_file_spec_witness :
  fst (@extract_text_from_file ascii_tables demo_services demo_pdf start)
  = Ok (local_text non_blank [py "a"; py " "]).
Proof.
  apply (@extract_text_from_file_spec ascii_tables demo_services demo_pdf start);
    by vm_compute.
Defined.

Lemma excel_name_takes_table_path_witness :
  trace (snd (@extract_one ascii_tables demo_services true
                {| extracted_texts := []; processed_files := [] |} demo_xlsx start))
    = [CallReadExcel (name demo_xlsx)] /\
  exists table,
    fst (@extract_one ascii_tables demo_services true
           {| extracted_texts := []; processed_files := [] |} demo_xlsx start)
      = Ok {| extracted_texts := [];
              processed_files := [{| pf_name := name demo_xlsx; pf_result := table |}] |} /\
    cleaned demo_table table.
Proof.
  pose proof (@excel_name_takes_table_path ascii_tables demo_services true
                {| extracted_texts := []; processed_files := [] |} demo_xlsx start
                eq_refl) as (Htrace & _ & Htable & _).
  split; [exact Htrace|]. by apply (Htable demo_table).
Defined.

(** * Further properties of the code *)

(** ** The extractors and the gateway *)

Section Gateway.
Context {U : PyUnicode} {S : Services}.

Lemma textract_sync_run (file : UploadedFile) (w : world) :
  extract_text_with_aws_textract_sync file w =
    (match detect_document_text (drop (cursor w) (content file)) with
     | Ok response => Ok (clean_financial_text (extract_text_with_formatting response))
     | Raise e => Raise (TextractExtractionFailed e)
     end,
     {| cursor := 0; trace := trace w ++ [CallTextract (name file)] |}).
Proof.
  unfold extract_text_with_aws_textract_sync, try_except, mbind, M_bind, file_read,
    file_seek0, emit, lift, raise, mret, M_ret. simpl.
  by destruct (detect_document_text _).
Qed.

(** X1: when the remote extraction succeeds the gateway returns its text
    and never starts the PDF parser; and when the gateway raises with the
    remote extraction preferred, both extractions have failed and the error
    is the one of the local extractor. *)
Theorem extract_text_hybrid_outcomes (file : UploadedFile) (w : world) :
  (forall t w', extract_text_with_aws_textract_sync file w = (Ok t, w') ->
     extract_text_hybrid file true w = (Ok t, w') /\
     trace w' = trace w ++ [CallTextract (name file)]) /\
  (forall e, fst (extract_text_hybrid file true w) = Raise e ->
     (exists cause w', extract_text_with_aws_textract_sync file w
                       = (Raise (TextractExtractionFailed cause), w')) /\
     fst (extract_text_from_file file w) = Raise e /\
     (e = UnsupportedFileType (lower (name file)) \/ exists cause, e = PdfExtractionFailed cause)).
Proof.
  split.
  - intros t w' H. unfold extract_text_hybrid, try_except. rewrite H. split; [done|].
    rewrite textract_sync_run in H. by injection H as _ <-.
  - intros e. unfold extract_text_hybrid, try_except.
    rewrite textract_sync_run.
    destruct (detect_document_text _) as [response|cause]; [done|].
    unfold mbind, M_bind, emit. simpl. intros H.
    rewrite (extract_text_from_file_result file _ w) in H.
    split_and!; [by eexists _, _|done|].
    revert H. unfold extract_text_from_file.
    destruct (ends_with _ _); [|intros [= <-]; by left].
    rewrite extract_text_from_pdf_run. simpl.
    destruct (PdfReader (content file)) as [pages|e0]; [|intros [= <-]; right; by eexists].
    destruct (pdf_pages_loop 0 pages []); [done|intros [= <-]; right; by eexists].
Qed.

End Gateway.

(** ** The normal form of an extracted text *)

Lemma fix_char_not_confusable (c : N) : is_confusable (fix_char c) = false.
Proof.
  unfold fix_char, is_confusable.
  repeat (case_match; try done);
    repeat match goal with
           | H : (_ =? _)%N = false |- _ => rewrite H
           end; done.
Qed.

Lemma in_join (sep : pystr) (parts : list pystr) (c : N) :
  In c (join sep parts) -> In c sep \/ exists part, In part parts /\ In c part.
Proof.
  induction parts as [|l ls IH]; [done|].
  destruct ls as [|l2 ls].
  - intros H. right. exists l. split; [by left|done].
  - change (join sep (l :: l2 :: ls)) with (l ++ sep ++ join sep (l2 :: ls)).
    rewrite !in_app_iff. intros [H|[H|H]].
    + right. exists l. split; [by left|done].
    + by left.
    + destruct (IH H) as [H'|(part & Hp & Hc)]; [by left|].
      right. exists part. split; [by right|done].
Qed.

Lemma clean_not_confusable (x : pystr) :
  Forall (fun c => is_confusable c = false) (clean_financial_text x).
Proof.
  rewrite clean_financial_text_eq. apply List.Forall_forall. intros c Hc.
  apply in_join in Hc as [[<-|[]]|(part & Hp & Hc)]; [done|].
  apply in_map_iff in Hp as (line & <- & _).
  apply in_map_iff in Hc as (c' & <- & _). apply fix_char_not_confusable.
Qed.

Lemma clean_of_clean (x : pystr) :
  clean_financial_text (clean_financial_text x) = clean_financial_text x.
Proof.
  rewrite (clean_financial_text_eq (clean_financial_text x)).
  unfold kept_lines at 1. rewrite clean_financial_text_lines.
  rewrite (clean_financial_text_eq x).
  pose proof (kept_lines_trimmed x) as Htrim.
  pose proof (kept_lines_well_spaced x) as Hws.
  destruct (kept_lines x) as [|l ls] eqn:E; [done|].
  rewrite map_strip_trimmed by by apply fixed_lines_trimmed.
  rewrite collapse_fixed by by rewrite well_spaced_map_fix.
  rewrite map_map. f_equal. apply map_ext. intros line.
  rewrite map_map. apply map_ext, fix_char_idem.
Qed.

Section NormalForm.
Context {U : PyUnicode} {S : Services}.

Lemma extract_text_hybrid_clean (file : UploadedFile) (use_aws : bool) (w w' : world)
    (t : pystr) :
  extract_text_hybrid file use_aws w = (Ok t, w') ->
  exists x, t = clean_financial_text x.
Proof.
  assert (Hlocal : forall w0 w1, extract_text_from_file file w0 = (Ok t, w1) ->
                     exists x, t = clean_financial_text x).
  { intros w0 w1. unfold extract_text_from_file.
    destruct (ends_with _ _); [|done]. rewrite extract_text_from_pdf_run.
    destruct (PdfReader (content file)) as [pages|e]; [|done].
    destruct (pdf_pages_loop 0 pages []) as [text|e]; [|done].
    intros [= <- _]. by eexists. }
  destruct use_aws; [|apply Hlocal].
  unfold extract_text_hybrid, try_except. rewrite textract_sync_run.
  destruct (detect_document_text _) as [response|cause].
  - intros [= <- _]. by eexists.
  - unfold mbind, M_bind, emit. simpl. apply Hlocal.
Qed.

(** X2: every text that the gateway returns, from either extractor, is a
    fixed point of the normaliser and holds none of the letters O, l, I and
    S, which the substitution table has turned into digits; so the currency
    marker USD is never found in an extracted text. *)
Theorem extracted_text_normal_form (file : UploadedFile) (use_aws : bool)
    (w w' : world) (t : pystr) :
  extract_text_hybrid file use_aws w = (Ok t, w') ->
  clean_financial_text t = t /\
  Forall (fun c => is_confusable c = false) t /\
  contains (py "USD") t = false.
Proof.
  intros (x & ->)%extract_text_hybrid_clean.
  pose proof (clean_not_confusable x) as Hc.
  split_and!; [apply clean_of_clean|done|].
  apply (contains_absent 83%N); [vm_compute; tauto|].
  rewrite List.Forall_forall in Hc. intros Hin. by specialize (Hc _ Hin).
Qed.

Lemma lstrip_white (s : pystr) : forallb is_space s = true -> lstrip s = [].
Proof.
  induction s as [|c r IH]; [done|]. simpl.
  intros [Hc Hr]%andb_true_iff. rewrite Hc. by apply IH.
Qed.

Lemma blank_pages_add_nothing (numbers : list nat) (pages : list pystr) :
  Forall (fun page => forallb is_space page = true) pages ->
  flat_map (page_entry non_blank) (combine numbers pages) = [].
Proof.
  intros H. revert numbers. induction H as [|p pages Hp _ IH]; intros [|n numbers];
    simpl; try done.
  rewrite IH. unfold page_entry, non_blank, strip. simpl.
  by rewrite (lstrip_white p Hp).
Qed.

(** X3: a PDF without pages, or whose pages hold white space only, is no
    error: the local extractor returns the empty text for it; and whenever
    the text of Step 1 is the one of the local extractor, that is when AWS
    is not available or the remote extraction raises, Step 1 keeps the file
    among the extracted texts with the empty text and the quality score 0. *)
Theorem blank_pdf_scores_zero (file : UploadedFile) (pages : list pystr) (aws : bool)
    (session : Session) (w : world) :
  ends_with (py ".pdf") (lower (name file)) = true ->
  is_excel_name (name file) = false ->
  PdfReader (content file) = Ok (map Ok pages) ->
  Forall (fun page => forallb is_space page = true) pages ->
  (aws = true ->
   exists cause,
     detect_document_text (drop (position file) (content file)) = Raise cause) ->
  fst (extract_text_from_file file w) = Ok [] /\
  fst (extract_one aws session file w)
    = Ok {| extracted_texts := extracted_texts session ++
              [{| file_name := name file; text := []; quality_score := 0 |}];
            processed_files := processed_files session |}.
Proof.
  intros Hpdf Hxls Hread Hblank Hremote.
  assert (Hrun : forall w0, extract_text_from_file file w0
            = (Ok [], {| cursor := cursor w0;
                         trace := trace w0 ++ [CallPdfReader (name file)] |})).
  { intros w0. unfold extract_text_from_file. rewrite Hpdf.
    rewrite extract_text_from_pdf_run, Hread, pdf_pages_loop_ok.
    by rewrite blank_pages_add_nothing. }
  split; [by rewrite Hrun|].
  unfold extract_one, extract_text_hybrid. rewrite Hxls.
  unfold mbind at 1, M_bind at 1. destruct aws.
  - destruct (Hremote eq_refl) as [cause Hcause].
    unfold try_except. rewrite textract_sync_run. simpl. rewrite Hcause.
    unfold mbind, M_bind, emit. simpl. by rewrite Hrun.
  - by rewrite Hrun.
Qed.

End NormalForm.

Lemma extracted_text_normal_form_witness :
  clean_financial_text (py "--- PAGE 1 ---" ++ [NL] ++ py "a")
  = py "--- PAGE 1 ---" ++ [NL] ++ py "a".
Proof.
  apply (@extracted_text_normal_form ascii_tables demo_services demo_pdf true start
           {| cursor := 0;
              trace := [CallTextract (name demo_pdf); FallbackWarning (name demo_pdf);
                        CallPdfReader (name demo_pdf)] |}).
  reflexivity.
Defined.

Lemma blank_pdf_scores_zero_witness :
  fst (@extract_text_from_file ascii_tables offline_services demo_pdf start) = Ok [] /\
  fst (@extract_one ascii_tables offline_services true
         {| extracted_texts := []; processed_files := [] |} demo_pdf start)
    = Ok {| extracted_texts :=
              [{| file_name := py "scan.PDF"; text := []; quality_score := 0 |}];
            processed_files := [] |}.
Proof.
  apply (@blank_pdf_scores_zero ascii_tables offline_services demo_pdf [py " "; []] true
           {| extracted_texts := []; processed_files := [] |} start);
    try reflexivity.
  - repeat constructor.
  - intros _. by eexists.
Defined.

(** ** The two steps of the page *)

Section Steps.
Context {U : PyUnicode} {S : Services}.

(** The gateway adds to the log and looks at nothing in it. *)
Lemma extract_text_hybrid_frame (file : UploadedFile) (use_aws : bool) (c : nat)
    (log : list event) :
  let alone := extract_text_hybrid file use_aws {| cursor := c; trace := [] |} in
  extract_text_hybrid file use_aws {| cursor := c; trace := log |}
  = (fst alone, {| cursor := cursor (snd alone); trace := log ++ trace (snd alone) |}).
Proof.
  assert (Hlocal : forall c0 log0,
            extract_text_from_file file {| cursor := c0; trace := log0 |}
            = (fst (extract_text_from_file file {| cursor := c0; trace := [] |}),
               {| cursor := c0;
                  trace := log0 ++ trace (snd (extract_text_from_file file
                                                 {| cursor := c0; trace := [] |})) |})).
  { intros c0 log0. unfold extract_text_from_file. destruct (ends_with _ _).
    - by rewrite !extract_text_from_pdf_run.
    - unfold raise. simpl. by rewrite app_nil_r. }
  cbv zeta. destruct use_aws.
  - unfold extract_text_hybrid, try_except. rewrite !textract_sync_run. simpl.
    destruct (detect_document_text _) as [response|cause]; [done|].
    unfold mbind, M_bind, emit. simpl.
    rewrite (Hlocal 0 ((log ++ _) ++ _)), (Hlocal 0 [_; _]). simpl.
    by rewrite <- !app_assoc.
  - unfold extract_text_hybrid. rewrite (Hlocal c log). f_equal.
    by rewrite (Hlocal c []).
Qed.

(** What one turn of the extraction loop does. *)
Lemma extract_one_file_result (aws : bool) (session : Session) (file : UploadedFile)
    (w : world) :
  fst (extract_one aws session file w)
  = match file_result aws file with
    | Ok (inl entry) =>
        Ok {| extracted_texts := extracted_texts session ++ [entry];
              processed_files := processed_files session |}
    | Ok (inr table) =>
        Ok {| extracted_texts := extracted_texts session;
              processed_files := processed_files session ++ [table] |}
    | Raise e => Raise e
    end /\
  trace (snd (extract_one aws session file w)) = trace w ++ file_events aws file.
Proof.
  unfold extract_one, file_result, file_events, is_excel_name.
  destruct (ends_with (py ".xlsx") (name file) || ends_with (py ".xls") (name file)).
  - unfold mbind, M_bind. rewrite process_excel_file_run.
    by destruct (read_excel _ _).
  - unfold mbind, M_bind. rewrite extract_text_hybrid_frame.
    by destruct (fst (extract_text_hybrid file aws _)).
Qed.

Lemma for_each_cons {A B : Type} (body : B -> A -> M B) (acc : B) (x : A)
    (items : list A) (w : world) :
  for_each body acc (x :: items) w
  = match body acc x w with
    | (Ok acc', w') => for_each body acc' items w'
    | (Raise e, w') => (Raise e, w')
    end.
Proof. reflexivity. Qed.

(** The loop over files that all succeed. *)
Lemma extract_loop_ok (aws : bool) (files : list UploadedFile) (session : Session)
    (w : world) :
  Forall (succeeds aws) files ->
  fst (for_each (extract_one aws) session files w)
  = Ok {| extracted_texts := extracted_texts session ++ batch_texts aws files;
          processed_files := processed_files session ++ batch_tables aws files |} /\
  trace (snd (for_each (extract_one aws) session files w))
  = trace w ++ flat_map (file_events aws) files.
Proof.
  intros H. revert session w.
  induction H as [|f files [entry Hf] _ IH]; intros session w.
  - simpl. rewrite !app_nil_r. by destruct session.
  - rewrite for_each_cons.
    destruct (extract_one_file_result aws session f w) as [Hr Ht].
    destruct (extract_one aws session f w) as [[session1|e] w1]; simpl in Hr, Ht;
      rewrite Hf in Hr; [|by destruct entry].
    destruct (IH session1 w1) as [IHr IHt]. rewrite IHr, IHt, Ht.
    unfold batch_texts, batch_tables. simpl. rewrite Hf, <- !app_assoc.
    destruct entry; injection Hr as ->; simpl; by rewrite <- ?app_assoc.
Qed.

(** The loop stops at the first file that raises. *)
Lemma extract_loop_stops (aws : bool) (before rest : list UploadedFile)
    (failed : UploadedFile) (e : exn) (session : Session) (w : world) :
  Forall (succeeds aws) before ->
  file_result aws failed = Raise e ->
  fst (for_each (extract_one aws) session (before ++ failed :: rest) w) = Raise e /\
  trace (snd (for_each (extract_one aws) session (before ++ failed :: rest) w))
  = trace w ++ flat_map (file_events aws) (before ++ [failed]).
Proof.
  intros H He. revert session w.
  induction H as [|f files [entry Hf] _ IH]; intros session w.
  - simpl app. rewrite for_each_cons.
    destruct (extract_one_file_result aws session failed w) as [Hr Ht].
    destruct (extract_one aws session failed w) as [[session1|e1] w1];
      simpl in Hr, Ht; rewrite He in Hr; [done|].
    injection Hr as ->. simpl. by rewrite app_nil_r.
  - simpl app. rewrite for_each_cons.
    destruct (extract_one_file_result aws session f w) as [Hr Ht].
    destruct (extract_one aws session f w) as [[session1|e1] w1]; simpl in Hr, Ht;
      rewrite Hf in Hr; [|by destruct entry].
    destruct (IH session1 w1) as [IHr IHt]. rewrite IHr, IHt, Ht.
    simpl. by rewrite <- app_assoc.
Qed.

(** X4: Step 1 is all or nothing, and never raises. When every file of the
    batch succeeds, the session state becomes the results of the files: the
    texts of the files that went through the gateway, each with its own
    score, and the tables of the files with an Excel name, both in upload
    order; the log gains what each file logged, in order. When a file
    raises after files that succeeded, the loop stops there: the files that
    follow are not touched, the error of that file is reported once, as
    the last event, and the session state is the one from before, without
    the results of the files that had succeeded. Every batch is in one of
    the two cases. *)
Theorem step1_all_or_nothing (aws : bool) (files : list UploadedFile)
    (state : Session) (w : world) :
  (exists state', fst (step1 aws files state w) = Ok state') /\
  (Forall (succeeds aws) files ->
   fst (step1 aws files state w)
   = Ok {| extracted_texts := batch_texts aws files;
           processed_files := batch_tables aws files |} /\
   trace (snd (step1 aws files state w))
   = trace w ++ flat_map (file_events aws) files) /\
  (forall before failed rest e,
     files = before ++ failed :: rest ->
     Forall (succeeds aws) before ->
     file_result aws failed = Raise e ->
     fst (step1 aws files state w) = Ok state /\
     trace (snd (step1 aws files state w))
     = trace w ++ flat_map (file_events aws) (before ++ [failed]) ++ [UiError e]) /\
  (Forall (succeeds aws) files \/
   exists before failed rest e,
     files = before ++ failed :: rest /\ Forall (succeeds aws) before /\
     file_result aws failed = Raise e).
Proof.
  split_and!; cycle 3.
  { clear state w. induction files as [|f files IH]; [by left|].
    destruct (file_result aws f) as [entry|e] eqn:E.
    - destruct IH as [IH|(before & failed & rest & e & -> & Hb & He)].
      + left. constructor; [by exists entry|done].
      + right. exists (f :: before), failed, rest, e.
        split_and!; [done| |done]. constructor; [by exists entry|done].
    - right. by exists [], f, files, e. }
  - unfold step1, try_except.
    destruct (for_each _ _ _ _) as [[state'|e] w']; by eexists.
  - intros H.
    destruct (extract_loop_ok aws files {| extracted_texts := []; processed_files := [] |}
                w H) as [Hr Ht].
    unfold step1, try_except.
    destruct (for_each _ _ _ _) as [[state'|e] w']; simpl in Hr, Ht; [|done].
    by injection Hr as ->.
  - intros before failed rest e -> H He.
    destruct (extract_loop_stops aws before rest failed e
                {| extracted_texts := []; processed_files := [] |} w H He) as [Hr Ht].
    unfold step1, try_except.
    destruct (for_each _ _ _ _) as [[state'|e'] w']; simpl in Hr, Ht; [done|].
    injection Hr as ->. simpl. by rewrite Ht, <- app_assoc.
Qed.

Lemma dispatch_extractor (doc_type text : pystr) :
  dispatch doc_type text
  = option_map (fun e => run_extractor e text) (extractor_of_label doc_type).
Proof. unfold dispatch, extractor_of_label. by repeat case_bool_decide. Qed.

Lemma run_extractor_run (e : extractor) (text : pystr) (w : world) :
  run_extractor e text w
  = (extractor_result e text,
     {| cursor := cursor w; trace := trace w ++ [extractor_call e text] |}).
Proof.
  destruct e; unfold run_extractor, extractor_result, process_invoice,
    process_bank_statement, process_general_document, mbind, M_bind, emit, lift,
    mret, M_ret; simpl.
  - by destruct (process_invoice_llm text).
  - by destruct (process_bank_statement_llm text).
  - by destruct (process_general_document_llm text).
Qed.

Lemma analyze_one_exact (all_results : list AnalysisResult) (r : ExtractedText) (w : world) :
  analyze_one all_results r w
  = (Ok (all_results ++ match analysed_entry r with Some entry => [entry] | None => [] end),
     {| cursor := cursor w; trace := trace w ++ analysed_events r |}).
Proof.
  unfold analyze_one, try_except, classify_document, analysed_entry, analysed_events.
  unfold mbind at 1, M_bind at 1, mbind at 1, M_bind at 1, emit at 1, lift at 1.
  destruct (classify_document_llm (text r)) as [doc_type|err].
  2:{ unfold mbind, M_bind, emit, mret, M_ret. simpl.
      by rewrite app_nil_r, <- app_assoc. }
  rewrite dispatch_extractor.
  destruct (extractor_of_label doc_type) as [e|]; simpl.
  - unfold mbind at 1, M_bind at 1. rewrite run_extractor_run.
    destruct (extractor_result e (text r)) as [final_output|err];
      unfold mbind, M_bind, emit, mret, M_ret; simpl.
    + by rewrite <- app_assoc.
    + by rewrite app_nil_r, <- !app_assoc.
  - unfold mbind, M_bind, emit, mret, M_ret. simpl.
    by rewrite app_nil_r, <- app_assoc.
Qed.

Lemma analyze_loop_exact (texts : list ExtractedText) (all_results : list AnalysisResult)
    (w : world) :
  for_each analyze_one all_results texts w
  = (Ok (all_results ++ omap analysed_entry texts),
     {| cursor := cursor w; trace := trace w ++ flat_map analysed_events texts |}).
Proof.
  revert all_results w. induction texts as [|r texts IH]; intros all_results w.
  - simpl. rewrite !app_nil_r. by destruct w.
  - cbn [for_each]. unfold mbind, M_bind at 1. rewrite analyze_one_exact.
    fold (@for_each ExtractedText (list AnalysisResult)).
    rewrite IH. simpl. rewrite <- !app_assoc.
    by destruct (analysed_entry r).
Qed.

(** X5: Step 2 never raises and never stops early. Its results are, in
    order, one entry for every extracted text whose classification and
    extraction both succeed, under the label the classifier gave, followed
    by one entry for every processed Excel file; a text whose classifier or
    extractor fails, or whose label is unknown, costs its own entry only,
    and is reported in the log. *)
Theorem step2_partial_failure (state : Session) (w : world) :
  step2 state w
  = (Ok (omap analysed_entry (extracted_texts state)
         ++ map excel_entry (processed_files state)),
     {| cursor := cursor w;
        trace := trace w ++ flat_map analysed_events (extracted_texts state) |}).
Proof.
  unfold step2, mbind, M_bind. rewrite analyze_loop_exact. simpl.
  apply excel_loop_run.
Qed.

(** X6: the branching on the label falls through exactly for the labels
    outside the six categories; a text with such a label is skipped with a
    warning: no extractor is called for it and no result is added. *)
Theorem unknown_label_is_skipped (doc_type : pystr) (all_results : list AnalysisResult)
    (r : ExtractedText) (w : world) :
  (dispatch doc_type (text r) = None <-> forall c, doc_type <> category_label c) /\
  (classify_document_llm (text r) = Ok doc_type ->
   (forall c, doc_type <> category_label c) ->
   analyze_one all_results r w
   = (Ok all_results,
      {| cursor := cursor w;
         trace := trace w ++ [CallClassifier (text r); UiWarning (file_name r)] |})).
Proof.
  assert (Hnone : extractor_of_label doc_type = None <->
                  forall c, doc_type <> category_label c).
  { unfold extractor_of_label. split.
    - repeat case_bool_decide; try done. intros _ c ->.
      destruct c; simpl in *; try done;
        match goal with H : ~ (_ ∈ _) |- _ => apply H end;
        repeat (first [apply list_elem_of_here | apply list_elem_of_further]).
    - intros H. repeat case_bool_decide; try done.
      + by destruct (H invoice).
      + by destruct (H bank_statement).
      + exfalso.
        repeat match goal with
               | Hin : _ ∈ _ :: _ |- _ => apply elem_of_cons in Hin as [Hin|Hin]
               | Hin : _ ∈ [] |- _ => by apply elem_of_nil in Hin
               end;
          [by apply (H tax_document)|by apply (H receipt)
          |by apply (H financial_report)|by apply (H other)]. }
  split.
  - rewrite dispatch_extractor, <- Hnone. by destruct (extractor_of_label doc_type).
  - intros Hc Hu. rewrite analyze_one_exact. unfold analysed_entry, analysed_events.
    rewrite Hc. apply Hnone in Hu. rewrite Hu. by rewrite app_nil_r.
Qed.

End Steps.

Lemma step1_all_or_nothing_witness :
  let state := {| extracted_texts := []; processed_files := [] |} in
  (fst (@step1 ascii_tables demo_services true [demo_pdf; demo_xlsx] state start)
   = Ok {| extracted_texts :=
             [{| file_name := py "scan.PDF";
                 text := py "--- PAGE 1 ---" ++ [NL] ++ py "a";
                 quality_score := 25 |}];
           processed_files :=
             [{| pf_name := py "ledger.xlsx";
                 pf_result :=
                   {| columns := [py "item"; py "amount"];
                      rows := [ (0%Z, [CellText (py "rent"); CellNumber 1200%Q]);
                                (2%Z, [CellText (py "tax"); CellText []]) ] |} |}] |} /\
   trace (snd (@step1 ascii_tables demo_services true [demo_pdf; demo_xlsx] state start))
   = [CallTextract (py "scan.PDF"); FallbackWarning (py "scan.PDF");
      CallPdfReader (py "scan.PDF"); CallReadExcel (py "ledger.xlsx")]) /\
  (fst (@step1 ascii_tables demo_services true [demo_pdf; capital_xlsx; demo_xlsx]
          state start) = Ok state /\
   trace (snd (@step1 ascii_tables demo_services true [demo_pdf; capital_xlsx; demo_xlsx]
                 state start))
   = [CallTextract (py "scan.PDF"); FallbackWarning (py "scan.PDF");
      CallPdfReader (py "scan.PDF");
      CallTextract (py "LEDGER.XLSX"); FallbackWarning (py "LEDGER.XLSX");
      UiError (UnsupportedFileType (py "ledger.xlsx"))]).
Proof.
  intros state. split.
  - apply (proj1 (proj2 (@step1_all_or_nothing ascii_tables demo_services true
                           [demo_pdf; demo_xlsx] state start))).
    repeat constructor; eexists; vm_compute; reflexivity.
  - apply (proj1 (proj2 (proj2 (@step1_all_or_nothing ascii_tables demo_services true
                                  [demo_pdf; capital_xlsx; demo_xlsx] state start)))
             [demo_pdf] capital_xlsx [demo_xlsx]).
    + reflexivity.
    + repeat constructor; eexists; vm_compute; reflexivity.
    + reflexivity.
Defined.

Lemma unknown_label_is_skipped_witness :
  @analyze_one memo_services []
      {| file_name := py "note.pdf"; text := py "hello"; quality_score := 0 |} start
  = (Ok [], {| cursor := 0;
               trace := [CallClassifier (py "hello"); UiWarning (py "note.pdf")] |}).
Proof.
  apply (@unknown_label_is_skipped memo_services (py "memo") []
           {| file_name := py "note.pdf"; text := py "hello"; quality_score := 0 |} start).
  - reflexivity.
  - intros c. by destruct c.
Defined.

(** ** The size of a normalised text *)

Lemma lstrip_length (s : pystr) : length (lstrip s) <= length s.
Proof.
  induction s as [|c r IH]; simpl; [done|]. destruct (is_space c); simpl; lia.
Qed.

Lemma strip_length (s : pystr) : length (strip s) <= length s.
Proof.
  unfold strip, rstrip. rewrite length_rev.
  etransitivity; [apply lstrip_length|]. rewrite length_rev. apply lstrip_length.
Qed.

Lemma join_length (c : N) (lines : list pystr) :
  lines <> [] -> S (length (join [c] lines)) = lines_size lines.
Proof.
  induction lines as [|l ls IH]; [done|]. intros _.
  destruct ls as [|l2 ls].
  - unfold lines_size. simpl. lia.
  - change (join [c] (l :: l2 :: ls)) with (l ++ c :: join [c] (l2 :: ls)).
    rewrite length_app, length_cons.
    change (lines_size (l :: l2 :: ls)) with (S (length l) + lines_size (l2 :: ls)).
    rewrite <- IH by done. lia.
Qed.

Lemma split_on_size (sep : N) (text : pystr) :
  lines_size (split_on sep text) = S (length text).
Proof.
  induction text as [|c r IH]; [done|]. simpl.
  destruct (c =? sep)%N.
  - change (lines_size ([] :: split_on sep r)) with (1 + lines_size (split_on sep r)).
    rewrite IH. lia.
  - pose proof (split_on_not_nil sep r) as Hne.
    destruct (split_on sep r) as [|l ls]; [done|].
    change (lines_size ((c :: l) :: ls)) with (S (S (length l)) + lines_size ls).
    change (lines_size (l :: ls)) with (S (length l) + lines_size ls) in IH.
    simpl length. lia.
Qed.

Lemma collapse_size (lead : bool) (lines : list pystr) :
  lines_size (collapse lead (map strip lines)) <= lines_size lines.
Proof.
  revert lead. induction lines as [|l ls IH]; intros lead; [done|].
  pose proof (strip_length l) as Hl. simpl map.
  change (lines_size (l :: ls)) with (S (length l) + lines_size ls).
  destruct (strip l) as [|c s] eqn:E.
  - destruct lead; simpl collapse.
    + specialize (IH true). lia.
    + change (lines_size ([] :: ?x)) with (1 + lines_size x).
      specialize (IH true). lia.
  - simpl collapse.
    change (lines_size ((c :: s) :: ?x)) with (S (length (c :: s)) + lines_size x).
    specialize (IH false). lia.
Qed.

Lemma fixed_lines_size (lines : list pystr) :
  lines_size (map (map fix_char) lines) = lines_size lines.
Proof.
  unfold lines_size. rewrite map_map. f_equal. apply map_ext.
  intros line. by rewrite length_map.
Qed.

(** X7: the normaliser never makes a text longer. *)
Theorem clean_financial_text_length (text : pystr) :
  length (clean_financial_text text) <= length text.
Proof.
  rewrite clean_financial_text_eq.
  destruct (map (map fix_char) (kept_lines text)) as [|l ls] eqn:E; [simpl; lia|].
  apply le_S_n. rewrite join_length by done. rewrite <- E, fixed_lines_size.
  rewrite <- split_on_size with (sep := NL). apply collapse_size.
Qed.

(** ** The feedback on a score *)

Section Feedback.
Context {U : PyUnicode}.

(** X8: a text is rated high quality, that is at 80 or above, exactly when
    it is not empty, has a trimmed length of at least 10 and a length of at
    least 50, has noise on at most a tenth of its characters, and fails at
    most one of the four other tests; a text under 50 characters never
    scores above 70. *)
Theorem high_quality_iff (text : pystr) :
  (quality_feedback (validate_text_quality text) = HighQuality <->
   text <> [] /\ 10 <= length (strip text) /\ 50 <= length text /\
   10 * noise_count text <= length text /\ minor_failures text <= 1) /\
  (length text < 50 -> (validate_text_quality text <= 70)%Z).
Proof.
  destruct (decide (text = [] \/ length (strip text) < 10)) as [Ht|Ht].
  { rewrite validate_text_quality_terminal by done. split; [|lia].
    split; [done|]. intros (Hne & Hlen & _). destruct Ht; [done|lia]. }
  assert (Hne : text <> []) by (intros ->; apply Ht; by left).
  assert (Hlen : 10 <= length (strip text)).
  { apply Nat.nlt_ge. intros H. apply Ht. by right. }
  rewrite validate_text_quality_penalties by done.
  unfold penalties, minor_failures, noise_count, findall_special.
  rewrite numbers_length.
  destruct (Nat.ltb_spec (length text) 50) as [H50|H50];
    destruct (Nat.ltb_spec (length text) (10 * length (List.filter is_special text)))
      as [Hn|Hn];
    destruct (found_keywords text <? 3), (numeric_tokens text <? 3),
      (negb (has_currency text)), (has_repeated text);
    unfold clamp, pen, quality_feedback;
    (split; [split; [simpl; try done; intros _; split_and!; simpl; try done; lia
                    | intros (_ & _ & ? & ? & ?); simpl in *; try done; lia]
            | intros ?; lia]).
Qed.

End Feedback.

(** ** The grouping of the blocks *)

(** X9: the lines that the formatter holds for a page are the LINE blocks
    of that page in response order, from the last PAGE block of the page
    on: a PAGE block empties what was collected for its page, so the lines
    that precede it are lost; a page without a PAGE block holds all its
    lines, and is absent when it has none. *)
Theorem group_blocks_lines (page_num : Z) (blocks pre post : list Block) (pg : Block) :
  (Forall (fun b => is_page_of page_num b = false) blocks ->
   group_blocks blocks !! page_num
   = match List.filter (is_line_of page_num) blocks with
     | [] => None
     | lines => Some lines
     end) /\
  (is_page_of page_num pg = true ->
   Forall (fun b => is_page_of page_num b = false) post ->
   group_blocks (pre ++ pg :: post) !! page_num
   = Some (List.filter (is_line_of page_num) post)).
Proof.
  unfold group_blocks. split.
  - intros H. rewrite group_fold_lookup by done. by rewrite lookup_empty.
  - intros Hpg H. rewrite fold_left_app. cbn [fold_left].
    rewrite group_fold_lookup by done.
    unfold group_step at 1. unfold is_page_of in Hpg.
    destruct (BlockType pg); try done. apply bool_decide_eq_true in Hpg.
    by rewrite Hpg, lookup_insert_eq.
Qed.

Lemma group_blocks_lines_witness :
  group_blocks
    [ {| BlockType := LINE; Page := Some 1%Z; Top := None; Left := None;
         Text := Some (py "lost") |};
      {| BlockType := PAGE; Page := None; Top := None; Left := None; Text := None |};
      {| BlockType := LINE; Page := None; Top := None; Left := None;
         Text := Some (py "kept") |} ] !! 1%Z
  = Some [ {| BlockType := LINE; Page := None; Top := None; Left := None;
              Text := Some (py "kept") |} ].
Proof.
  apply (proj2 (group_blocks_lines 1
           []
           [ {| BlockType := LINE; Page := Some 1%Z; Top := None; Left := None;
                Text := Some (py "lost") |} ]
           [ {| BlockType := LINE; Page := None; Top := None; Left := None;
                Text := Some (py "kept") |} ]
           {| BlockType := PAGE; Page := None; Top := None; Left := None;
              Text := None |})).
  - reflexivity.
  - by repeat constructor.
Defined.

(** ** The order of the lines *)

Lemma reading_order_key_le (a b : Block) : reading_order a b -> key_le a b = true.
Proof.
  unfold reading_order, key_le, key_lt. intros H. apply negb_true_iff.
  destruct H as [H|[Ht Hl]].
  - apply Qgt_alt in H. by rewrite H.
  - symmetry in Ht. apply Qeq_alt in Ht. rewrite Ht.
    destruct (left_of b ?= left_of a)%Q eqn:E; try done.
    apply Qlt_alt in E. by apply Qle_not_lt in Hl.
Qed.

Lemma key_le_iff (a b : Block) : key_le a b = true <-> reading_order a b.
Proof. split; [apply key_le_reading_order|apply reading_order_key_le]. Qed.

Lemma reading_order_trans (a b c : Block) :
  reading_order a b -> reading_order b c -> reading_order a c.
Proof.
  unfold reading_order. intros [H1|[H1 L1]] [H2|[H2 L2]].
  - left. by apply Qlt_trans with (top_of b).
  - left. by rewrite <- H2.
  - left. by rewrite H1.
  - right. split; [by rewrite H1|]. by apply Qle_trans with (left_of b).
Qed.

Lemma sorted_strongly (lines : list Block) :
  Sorted reading_order lines -> StronglySorted reading_order lines.
Proof.
  induction 1 as [|a l Hl IH Ha]; constructor; [done|].
  clear Hl. induction IH as [|b l Hbl _ Hb]; [constructor|].
  inversion Ha as [|? ? Hab]; subst. constructor; [done|].
  eapply List.Forall_impl; [|exact Hb]. intros c Hbc.
  by apply reading_order_trans with b.
Qed.

(** X10: the sort is stable: lines that stand in reading order in the
    response, lines with equal keys among them, come out as they stand. *)
Theorem sort_lines_in_order (lines : list Block) :
  Sorted reading_order lines -> sort_lines lines = lines.
Proof.
  induction 1 as [|a l Hl IH Ha]; [done|]. simpl. rewrite IH.
  destruct Ha as [|b l Hab]; [done|]. simpl.
  apply reading_order_key_le in Hab. unfold key_le in Hab.
  apply negb_true_iff in Hab. by rewrite Hab.
Qed.

Lemma sorted_perm_unique (l1 l2 : list Block) :
  StronglySorted reading_order l1 -> StronglySorted reading_order l2 ->
  Permutation l1 l2 ->
  (forall a b, In a l1 -> In b l1 -> same_key a b -> a = b) ->
  l1 = l2.
Proof.
  intros H1. revert l2. induction H1 as [|a l1 Hs1 IH Ha]; intros l2 H2 Hp Hk.
  - by apply Permutation_nil in Hp.
  - destruct H2 as [|b l2 Hs2 Hb].
    { symmetry in Hp. by apply Permutation_nil in Hp. }
    assert (Hab : a = b).
    { assert (Hin_a : In a (b :: l2)).
      { apply (Permutation_in a Hp). by left. }
      assert (Hin_b : In b (a :: l1)).
      { apply (Permutation_in b (Permutation_sym Hp)). by left. }
      destruct Hin_a as [<-|Hin_a]; [done|]. destruct Hin_b as [->|Hin_b]; [done|].
      rewrite List.Forall_forall in Ha, Hb.
      apply Hk; [by left|by right|].
      pose proof (reading_order_key_le _ _ (Ha _ Hin_b)) as Hle1.
      pose proof (reading_order_key_le _ _ (Hb _ Hin_a)) as Hle2.
      unfold key_le in *. apply negb_true_iff in Hle1, Hle2. by split. }
    subst b. f_equal. apply IH; [done|by apply Permutation_cons_inv in Hp|].
    intros x y Hx Hy. apply Hk; by right.
Qed.

(** X11: reading order does not depend on detection order: two
    arrangements of the same lines, no two of them with the same key, are
    sorted into the same list. *)
Theorem sort_lines_detection_order (lines1 lines2 : list Block) :
  Permutation lines1 lines2 ->
  (forall a b, In a lines1 -> In b lines1 -> same_key a b -> a = b) ->
  sort_lines lines1 = sort_lines lines2.
Proof.
  intros Hp Hk. apply sorted_perm_unique.
  - apply sorted_strongly, sort_lines_reading_order.
  - apply sorted_strongly, sort_lines_reading_order.
  - by rewrite !sort_lines_perm.
  - intros a b Ha Hb. apply Hk.
    + by apply (Permutation_in a (sort_lines_perm lines1)).
    + by apply (Permutation_in b (sort_lines_perm lines1)).
Qed.

Lemma sort_lines_in_order_witness :
  sort_lines
    [ {| BlockType := LINE; Page := None; Top := Some 0.1%Q; Left := Some 0.2%Q;
         Text := Some (py "A") |};
      {| BlockType := LINE; Page := None; Top := Some 0.1%Q; Left := Some 0.2%Q;
         Text := Some (py "B") |} ]
  = [ {| BlockType := LINE; Page := None; Top := Some 0.1%Q; Left := Some 0.2%Q;
         Text := Some (py "A") |};
      {| BlockType := LINE; Page := None; Top := Some 0.1%Q; Left := Some 0.2%Q;
         Text := Some (py "B") |} ].
Proof.
  apply sort_lines_in_order.
  apply Sorted_cons; [apply Sorted_cons; constructor|].
  apply HdRel_cons. right. split; [reflexivity|]. by vm_compute.
Defined.

Lemma sort_lines_detection_order_witness :
  sort_lines
    [ {| BlockType := LINE; Page := None; Top := Some 0.5%Q; Left := Some 0.1%Q;
         Text := Some (py "B") |};
      {| BlockType := LINE; Page := None; Top := Some 0.1%Q; Left := Some 0.2%Q;
         Text := Some (py "A") |} ]
  = sort_lines
      [ {| BlockType := LINE; Page := None; Top := Some 0.1%Q; Left := Some 0.2%Q;
           Text := Some (py "A") |};
        {| BlockType := LINE; Page := None; Top := Some 0.5%Q; Left := Some 0.1%Q;
           Text := Some (py "B") |} ].
Proof.
  apply sort_lines_detection_order.
  - apply perm_swap.
  - intros a b [<-|[<-|[]]] [<-|[<-|[]]] [H1 H2]; try done; by vm_compute in H1, H2.
Defined.

(** ** What the formatter keeps *)

Lemma occurs_refl (s : pystr) : occurs s s.
Proof. exists [], []. by rewrite app_nil_r. Qed.

Lemma occurs_trans (a b c : pystr) : occurs a b -> occurs b c -> occurs a c.
Proof.
  intros (p1 & q1 & ->) (p2 & q2 & ->).
  exists (p2 ++ p1), (q1 ++ q2). by rewrite <- !app_assoc.
Qed.

Lemma occurs_app_r (p s post : pystr) : occurs p s -> occurs p (s ++ post).
Proof.
  intros (a & b & ->). exists a, (b ++ post). by rewrite <- !app_assoc.
Qed.

Lemma occurs_rev (p s : pystr) : occurs p s -> occurs (rev p) (rev s).
Proof.
  intros (a & b & ->). exists (rev b), (rev a).
  by rewrite !rev_app_distr, <- app_assoc.
Qed.

Lemma occurs_lstrip (c : N) (p s : pystr) :
  is_space c = false -> occurs (c :: p) s -> occurs (c :: p) (lstrip s).
Proof.
  intros Hc (pre & post & ->). induction pre as [|x pre IH].
  - simpl. rewrite Hc. by exists [], post.
  - change ((x :: pre) ++ (c :: p) ++ post) with (x :: (pre ++ (c :: p) ++ post)).
    cbn [lstrip]. destruct (is_space x); [done|].
    by exists (x :: pre), post.
Qed.

(** A trimmed, non-empty text that occurs in a text still occurs in it
    after trimming. *)
Lemma occurs_strip (x s : pystr) :
  strip x <> [] -> occurs (strip x) s -> occurs (strip x) (strip s).
Proof.
  intros Hne H.
  assert (Hhead : exists c r, strip x = c :: r /\ is_space c = false).
  { pose proof (lstrip_strip x) as E. destruct (strip x) as [|c r]; [done|].
    exists c, r. split; [done|]. by apply (lstrip_head _ r c E). }
  assert (Hlast : exists c r, rev (strip x) = c :: r /\ is_space c = false).
  { unfold strip, rstrip in *. rewrite rev_involutive.
    destruct (lstrip (rev (lstrip x))) as [|c r] eqn:E; [done|].
    exists c, r. split; [done|]. by apply (lstrip_head _ r c E). }
  destruct Hhead as (c & r & Ec & Hc). destruct Hlast as (d & q & Ed & Hd).
  unfold strip at 2. unfold rstrip.
  rewrite <- (rev_involutive (strip x)). apply occurs_rev.
  rewrite Ed. apply occurs_lstrip; [done|]. rewrite <- Ed. apply occurs_rev.
  rewrite Ec. apply occurs_lstrip; [done|]. by rewrite <- Ec.
Qed.

Lemma occurs_flat_map {A : Type} (f : A -> pystr) (x : A) (l : list A) :
  In x l -> occurs (f x) (flat_map f l).
Proof.
  induction l as [|y l IH]; [done|]. intros [->|H]; simpl.
  - apply occurs_app_r, occurs_refl.
  - by apply occurs_app_l, IH.
Qed.

Lemma occurs_join (sep part : pystr) (parts : list pystr) :
  In part parts -> occurs part (join sep parts).
Proof.
  induction parts as [|l ls IH]; [done|].
  destruct ls as [|l2 ls].
  - intros [->|[]]. apply occurs_refl.
  - change (join sep (l :: l2 :: ls)) with (l ++ sep ++ join sep (l2 :: ls)).
    intros [->|H].
    + apply occurs_app_r, occurs_refl.
    + by apply occurs_app_l, occurs_app_l, IH.
Qed.

(** X12: no collected line is lost: the trimmed text of every line that the
    formatter holds for a page, if it is not empty, occurs in the formatted
    text. *)
Theorem collected_lines_occur (response : Response) (page_num : Z)
    (lines : list Block) (line : Block) :
  group_blocks (default [] (Blocks response)) !! page_num = Some lines ->
  In line lines ->
  strip (text_of line) <> [] ->
  occurs (strip (text_of line)) (extract_text_with_formatting response).
Proof.
  intros Hpage Hin Hne. unfold extract_text_with_formatting.
  rewrite pages_loop_join. apply occurs_strip; [done|].
  set (pages := group_blocks (default [] (Blocks response))) in *.
  apply occurs_trans with (page_text pages page_num).
  - unfold page_text. rewrite Hpage. simpl.
    apply occurs_trans with (line_text line).
    + unfold line_text. destruct (strip (text_of line)) as [|c s] eqn:E; [done|].
      rewrite <- E. apply occurs_app_r, occurs_refl.
    + apply occurs_flat_map.
      by apply (Permutation_in line (Permutation_sym (sort_lines_perm lines))).
  - apply occurs_join, in_map, sorted_keys_spec. by rewrite Hpage.
Qed.

Lemma collected_lines_occur_witness :
  occurs (py "A") (extract_text_with_formatting example_lines).
Proof.
  apply (collected_lines_occur example_lines 1
           (default [] (Blocks example_lines))
           {| BlockType := LINE; Page := Some 1%Z; Top := Some 0.1%Q;
              Left := Some 0.2%Q; Text := Some (py "A") |}).
  - reflexivity.
  - right. by left.
  - done.
Defined.

(** ** The configuration *)

(** X14: the page prefers the remote extraction exactly when the Textract
    client is built from the two keys of the environment; the call that
    leaves the credentials to the default chain is made only where the page
    has the remote path switched off. The region is [AWS_REGION], or
    [us-east-1] when that is not set. *)
Theorem aws_available_explicit_credentials (env : environ) :
  (aws_available env = true <->
   exists key_id secret,
     env !! py "AWS_ACCESS_KEY_ID" = Some key_id /\
     env !! py "AWS_SECRET_ACCESS_KEY" = Some secret /\
     credentials (textract_client_args env) = Some (key_id, secret)) /\
  (aws_available env = false <-> credentials (textract_client_args env) = None) /\
  service_name (textract_client_args env) = py "textract" /\
  region_name (textract_client_args env)
    = default (py "us-east-1") (env !! py "AWS_REGION").
Proof.
  unfold aws_available, env_truthy, textract_client_args.
  destruct (env !! py "AWS_ACCESS_KEY_ID") as [[|a k]|];
    destruct (env !! py "AWS_SECRET_ACCESS_KEY") as [[|b s]|]; simpl;
    (split_and!; [split; [done || by eauto | by intros (? & ? & ? & ? & ?)]
                 |done|done|done]).
Qed.

(** X15: [get_llm] refuses an environment whose key is missing, empty or
    the placeholder, without calling the library; once the page has passed
    its own check of the key, that can only be the placeholder. With any
    other key the model asked for is gpt-4o at temperature 0. *)
Theorem get_llm_key_check {ChatModel : Type} (ChatOpenAI : pystr -> Z -> exn + ChatModel)
    (env : environ) :
  (get_llm ChatOpenAI env = inl (OpenAIClientFailed MissingApiKey) <->
   app_starts env = false \/
   env !! py "OPENAI_API_KEY" = Some (py "YOUR_OPENAI_API_KEY_HERE")) /\
  (get_llm ChatOpenAI env <> inl (OpenAIClientFailed MissingApiKey) ->
   get_llm ChatOpenAI env
   = match ChatOpenAI (py "gpt-4o") 0%Z with
     | inr llm => inr llm
     | inl e => inl (OpenAIClientFailed (LibraryError e))
     end).
Proof.
  unfold get_llm, app_starts, env_truthy.
  destruct (env !! py "OPENAI_API_KEY") as [[|c key]|].
  - split; [split; [by left|done]|]. intros H. by destruct H.
  - case_bool_decide as Hk.
    + split; [split; [right; by rewrite Hk|done]|]. intros H. by destruct H.
    + split; [|done]. split.
      * by destruct (ChatOpenAI _ _).
      * intros [H|H]; [done|]. exfalso. apply Hk. congruence.
  - split; [split; [by left|done]|]. intros H. by destruct H.
Qed.

(** ** The stream after a remote attempt *)

Section Retry.
Context {U : PyUnicode} {S : Services}.

(** X16: the remote extractor sends the service what the stream has left
    from its cursor on and leaves the stream rewound, whether the call
    succeeds or fails; so a second attempt on the same file sends the whole
    content, also when the first one found the stream read in part. *)
Theorem textract_retry_sends_whole_file (file : UploadedFile) (w : world) :
  let first := extract_text_with_aws_textract_sync file w in
  fst first
    = match detect_document_text (drop (cursor w) (content file)) with
      | Ok response => Ok (clean_financial_text (extract_text_with_formatting response))
      | Raise e => Raise (TextractExtractionFailed e)
      end /\
  cursor (snd first) = 0 /\
  fst (extract_text_with_aws_textract_sync file (snd first))
    = match detect_document_text (content file) with
      | Ok response => Ok (clean_financial_text (extract_text_with_formatting response))
      | Raise e => Raise (TextractExtractionFailed e)
      end.
Proof. intros first. subst first. by rewrite !textract_sync_run. Qed.

End Retry.
